(** * cognite-replicator: time series replication

    A shallow embedding of [cognite/replicator/time_series.py] and the
    properties of its transforms, its filter, its two clean-up sweeps
    and the control flow of [replicate].

    Conventions of the embedding.
    - Python values that may be [None] are [option]s; a [dict] from
      strings to strings is a [gmap string string]; a [set] is a [gset];
      a [dict] whose iteration order is observed is an insertion-ordered
      association list.
    - A Python exception is the [Raise] case of [result].
    - Calls that leave the module (the Cognite client, [time.time], the
      sibling module [replication]) are requests of a program tree
      ([prog]); an environment ([handler]) answers them, and [run]
      records the requests that were issued.
    - [logging] calls only format values that are already computed; they
      are left out.
    - Text is ASCII: a [string] stands for the Python [str] with the same
      characters. *)

From Stdlib Require Import ZArith Ascii String List Bool Lia.
From stdpp Require Import base option list gmap sets strings.

Local Open Scope string_scope.
Local Open Scope list_scope.
Local Open Scope Z_scope.

(** ** Exceptions and results *)

Inductive exn : Type :=
| KeyError (key : string)
| ValueError
| TypeError
| IndexError
| CollaboratorError (code : Z).

Inductive result (A : Type) : Type :=
| Ok (a : A)
| Raise (e : exn).

Arguments Ok {A} a.
Arguments Raise {A} e.

Definition rbind {A B} (r : result A) (f : A -> result B) : result B :=
  match r with
  | Ok a => f a
  | Raise e => Raise e
  end.

Definition is_ok {A} (r : result A) : bool :=
  match r with Ok _ => true | Raise _ => false end.

(** ** Data classes *)

(** [cognite.client.data_classes.TimeSeries], restricted to the
    attributes the module reads or writes.  Every attribute defaults to
    [None]. *)
Record TimeSeries : Type := mkTimeSeries {
  ts_id : option Z;
  external_id : option string;
  name : option string;
  is_string : option bool;
  metadata : option (gmap string string);
  unit : option string;
  asset_id : option Z;
  is_step : option bool;
  description : option string;
  security_categories : option (list Z);
  legacy_name : option string
}.

(** [cognite.client.data_classes.Asset]; the module only passes assets
    on to [replication.existing_mapping]. *)
Record Asset : Type := mkAsset {
  a_id : option Z;
  a_metadata : option (gmap string string)
}.

(** A [CogniteClient]: the handle tells two clients apart, the project
    name is [client.config.project]. *)
Record CogniteClient : Type := mkClient {
  handle : nat;
  config_project : string
}.

(** ** Built-ins *)

Module Py.

(** Truthiness of an optional dict: [None] and [{}] are false. *)
Definition dict_truthy (m : option (gmap string string)) : bool :=
  match m with
  | None => false
  | Some d => negb (bool_decide (d = ∅))
  end.

(** Truthiness of a [str]: only the empty string is false. *)
Definition str_truthy (s : string) : bool :=
  match s with
  | EmptyString => false
  | String _ _ => true
  end.

(** Truthiness of an optional [int]: [None] and [0] are false. *)
Definition int_truthy (n : option Z) : bool :=
  match n with
  | None => false
  | Some k => negb (k =? 0)
  end.

(** [d[key]] on a dict: [KeyError] when the key is missing. *)
Definition getitem (d : gmap string string) (key : string) : result string :=
  match d !! key with
  | Some v => Ok v
  | None => Raise (KeyError key)
  end.

(** [l[0]] on a list: [IndexError] when the list is empty. *)
Definition first {A} (l : list A) : result A :=
  match l with
  | x :: _ => Ok x
  | [] => Raise IndexError
  end.

(** Characters that [int] skips around a literal. *)
Definition is_space (c : ascii) : bool :=
  let n := nat_of_ascii c in
  ((9 <=? n)%nat && (n <=? 13)%nat) || (n =? 32)%nat.

Definition digit_of (c : ascii) : option Z :=
  let n := Z.of_nat (nat_of_ascii c) in
  if (48 <=? n) && (n <=? 57) then Some (n - 48) else None.

Fixpoint lstrip (s : list ascii) : list ascii :=
  match s with
  | c :: s' => if is_space c then lstrip s' else s
  | [] => []
  end.

Definition strip (s : list ascii) : list ascii :=
  rev (lstrip (rev (lstrip s))).

(** Decimal digits, single underscores allowed between two digits. *)
Fixpoint digits (acc : Z) (after_digit : bool) (s : list ascii) : option Z :=
  match s with
  | [] => if after_digit then Some acc else None
  | c :: s' =>
      match digit_of c with
      | Some d => digits (10 * acc + d) true s'
      | None =>
          if Ascii.eqb c "_"%char && after_digit
          then digits acc false s'
          else None
      end
  end.

(** [int(s)] for a [str] in base ten; [None] stands for [ValueError].
    Surrounding white space is dropped, one sign is allowed, and the
    digits may be grouped by single underscores.  The cap that recent
    interpreters put on the number of digits is not modelled. *)
Definition int_of_str (s : string) : option Z :=
  match strip (list_ascii_of_string s) with
  | c :: rest =>
      if Ascii.eqb c "-"%char then Z.opp <$> digits 0 false rest
      else if Ascii.eqb c "+"%char then digits 0 false rest
      else digits 0 false (c :: rest)
  | [] => None
  end.

Definition int (s : string) : result Z :=
  match int_of_str s with
  | Some k => Ok k
  | None => Raise ValueError
  end.

(** An insertion-ordered [dict] with integer keys: setting an existing
    key keeps its position and replaces its value. *)
Fixpoint setitem {V} (k : Z) (v : V) (d : list (Z * V)) : list (Z * V) :=
  match d with
  | [] => [(k, v)]
  | (k', v') :: d' =>
      if k =? k' then (k, v) :: d' else (k', v') :: setitem k v d'
  end.

(** [sub in s] on strings. *)
Fixpoint startswith (sub s : string) : bool :=
  match sub, s with
  | EmptyString, _ => true
  | String a sub', String b s' => Ascii.eqb a b && startswith sub' s'
  | String _ _, EmptyString => false
  end.

Fixpoint contains (sub s : string) : bool :=
  startswith sub s ||
  match s with
  | EmptyString => false
  | String _ s' => contains sub s'
  end.

End Py.

(** [m[key]] where [m] is an optional dict: subscripting [None] is a
    [TypeError]. *)
Definition subscript (m : option (gmap string string)) (key : string)
  : result string :=
  match m with
  | Some d => Py.getitem d key
  | None => Raise TypeError
  end.

(** The test [ts.metadata and ts.metadata[key]]: the subscript is only
    evaluated when the metadata is a non-empty dict, and the test then
    takes the truth value of the string found. *)
Definition metadata_and (ts : TimeSeries) (key : string) : result bool :=
  if Py.dict_truthy (metadata ts)
  then rbind (subscript (metadata ts) key) (fun v => Ok (Py.str_truthy v))
  else Ok false.

(** ** The transforms *)

(** Modelled from the spec: [replication.get_asset_ids], whose module is
    not part of the sources.  Each input id is looked up in the map; an
    id that is null or absent from the map gives null. *)
Definition get_asset_ids (ids : list (option Z)) (src_dst_ids_assets : gmap Z Z)
  : list (option Z) :=
  (fun i => match i with
            | Some a => src_dst_ids_assets !! a
            | None => None
            end) <$> ids.

(** The expression
    [replication.get_asset_ids([src_ts.asset_id], m)[0] if src_ts.asset_id else None]. *)
Definition linked_asset_id (src_ts : TimeSeries) (src_dst_ids_assets : gmap Z Z)
  : result (option Z) :=
  if Py.int_truthy (asset_id src_ts)
  then Py.first (get_asset_ids [asset_id src_ts] src_dst_ids_assets)
  else Ok None.

(** Attribute assignment [ts.attr = v]. *)
Definition set_external_id (v : option string) (t : TimeSeries) : TimeSeries :=
  mkTimeSeries (ts_id t) v (name t) (is_string t) (metadata t) (unit t)
    (asset_id t) (is_step t) (description t) (security_categories t)
    (legacy_name t).
Definition set_name (v : option string) (t : TimeSeries) : TimeSeries :=
  mkTimeSeries (ts_id t) (external_id t) v (is_string t) (metadata t) (unit t)
    (asset_id t) (is_step t) (description t) (security_categories t)
    (legacy_name t).
Definition set_is_string (v : option bool) (t : TimeSeries) : TimeSeries :=
  mkTimeSeries (ts_id t) (external_id t) (name t) v (metadata t) (unit t)
    (asset_id t) (is_step t) (description t) (security_categories t)
    (legacy_name t).
Definition set_metadata (v : option (gmap string string)) (t : TimeSeries)
  : TimeSeries :=
  mkTimeSeries (ts_id t) (external_id t) (name t) (is_string t) v (unit t)
    (asset_id t) (is_step t) (description t) (security_categories t)
    (legacy_name t).
Definition set_unit (v : option string) (t : TimeSeries) : TimeSeries :=
  mkTimeSeries (ts_id t) (external_id t) (name t) (is_string t) (metadata t) v
    (asset_id t) (is_step t) (description t) (security_categories t)
    (legacy_name t).
Definition set_asset_id (v : option Z) (t : TimeSeries) : TimeSeries :=
  mkTimeSeries (ts_id t) (external_id t) (name t) (is_string t) (metadata t)
    (unit t) v (is_step t) (description t) (security_categories t)
    (legacy_name t).
Definition set_is_step (v : option bool) (t : TimeSeries) : TimeSeries :=
  mkTimeSeries (ts_id t) (external_id t) (name t) (is_string t) (metadata t)
    (unit t) (asset_id t) v (description t) (security_categories t)
    (legacy_name t).
Definition set_description (v : option string) (t : TimeSeries) : TimeSeries :=
  mkTimeSeries (ts_id t) (external_id t) (name t) (is_string t) (metadata t)
    (unit t) (asset_id t) (is_step t) v (security_categories t)
    (legacy_name t).
Definition set_security_categories (v : option (list Z)) (t : TimeSeries)
  : TimeSeries :=
  mkTimeSeries (ts_id t) (external_id t) (name t) (is_string t) (metadata t)
    (unit t) (asset_id t) (is_step t) (description t) v (legacy_name t).

(** Objects live in a store indexed by references: two names for one
    reference are two names for one object. *)
Definition ref : Type := nat.
Definition heap : Type := ref -> TimeSeries.

Definition assign (r : ref) (f : TimeSeries -> TimeSeries) (h : heap) : heap :=
  fun r' => if Nat.eqb r' r then f (h r') else h r'.

Section Transforms.

(** [replication.new_metadata] belongs to the absent module; it is a
    function of the source object, the project name and the run time. *)
Variable new_metadata : TimeSeries -> string -> Z -> gmap string string.

Definition create_time_series (src_ts : TimeSeries)
    (src_dst_ids_assets : gmap Z Z) (project_src : string) (runtime : Z)
  : result TimeSeries :=
  let md := new_metadata src_ts project_src runtime in
  rbind (linked_asset_id src_ts src_dst_ids_assets) (fun aid =>
  Ok {| ts_id := None;
        external_id := external_id src_ts;
        name := name src_ts;
        is_string := is_string src_ts;
        metadata := Some md;
        unit := unit src_ts;
        asset_id := aid;
        is_step := is_step src_ts;
        description := description src_ts;
        security_categories := security_categories src_ts;
        legacy_name := external_id src_ts |}).

(** [src_ts] and [dst_ts] are references; every assignment writes the
    object [dst_ts] denotes, and the reference itself is returned. *)
Definition update_time_series (src_ts dst_ts : ref)
    (src_dst_ids_assets : gmap Z Z) (project_src : string) (runtime : Z)
    (h : heap) : result (ref * heap) :=
  let h := assign dst_ts (set_external_id (external_id (h src_ts))) h in
  let h := assign dst_ts (set_name (name (h src_ts))) h in
  let h := assign dst_ts (set_is_string (is_string (h src_ts))) h in
  let h := assign dst_ts
             (set_metadata (Some (new_metadata (h src_ts) project_src runtime))) h in
  let h := assign dst_ts (set_unit (unit (h src_ts))) h in
  rbind (linked_asset_id (h src_ts) src_dst_ids_assets) (fun aid =>
  let h := assign dst_ts (set_asset_id aid) h in
  let h := assign dst_ts (set_is_step (is_step (h src_ts))) h in
  let h := assign dst_ts (set_description (description (h src_ts))) h in
  let h := assign dst_ts
             (set_security_categories (security_categories (h src_ts))) h in
  Ok (dst_ts, h)).

End Transforms.

(** ** The service account filter *)

(** ["service_account_metrics" not in ts.name]: the operand must be a
    string, [None] is a [TypeError]. *)
Definition not_service_account (ts : TimeSeries) : result bool :=
  match name ts with
  | Some n => Ok (negb (Py.contains "service_account_metrics" n))
  | None => Raise TypeError
  end.

Fixpoint filter_away_service_account_ts (ts_src : list TimeSeries)
  : result (list TimeSeries) :=
  match ts_src with
  | [] => Ok []
  | ts :: rest =>
      rbind (not_service_account ts) (fun keep =>
      rbind (filter_away_service_account_ts rest) (fun out =>
      Ok (if keep then ts :: out else out)))
  end.

(** ** The sweeps: what is computed between the listing and the delete *)

(** Lines 142-149: the loop that sorts destination ids into
    [copied_list] and [not_copied_list]; the result is [not_copied_list]. *)
Fixpoint not_copied_loop (dst_list : list TimeSeries)
    (not_copied_list copied_list : list (option Z))
  : result (list (option Z)) :=
  match dst_list with
  | [] => Ok not_copied_list
  | ts :: rest =>
      rbind (metadata_and ts "_replicatedSource") (fun c =>
      if c
      then not_copied_loop rest not_copied_list (copied_list ++ [ts_id ts])
      else not_copied_loop rest (not_copied_list ++ [ts_id ts]) copied_list)
  end.

(** Lines 169-173: the dict comprehension, entries added in listing
    order. *)
Fixpoint dst_id_list_loop (ts_dst_list : list TimeSeries)
    (d : list (Z * option Z)) : result (list (Z * option Z)) :=
  match ts_dst_list with
  | [] => Ok d
  | ts :: rest =>
      rbind (metadata_and ts "_replicatedInternalId") (fun c =>
      if c
      then rbind (subscript (metadata ts) "_replicatedInternalId") (fun v =>
           rbind (Py.int v) (fun k =>
           dst_id_list_loop rest (Py.setitem k (ts_id ts) d)))
      else dst_id_list_loop rest d)
  end.

(** Line 166: the set of source ids. *)
Definition src_ids_of (src_list : list TimeSeries) : gset (option Z) :=
  list_to_set (ts_id <$> src_list).

(** Line 175: the ids whose key is not a source id, in dict order. *)
Definition diff_list_of (src_ids : gset (option Z))
    (dst_id_list : list (Z * option Z)) : list (option Z) :=
  snd <$> filter (fun p => Some (fst p) ∉ src_ids) dst_id_list.

(** ** Requests to the outside and program trees *)

(** Every way the module reaches outside itself.
    - [time_series_list c] is [c.time_series.list(limit=None)],
      [assets_list c] is [c.assets.list(limit=None)] and
      [time_series_delete c ids] is [c.time_series.delete(id=ids)];
    - [retry_create c objs] is
      [replication.retry(c.time_series.create, objs)], and likewise
      [retry_update];
    - [make_id_object_map], [existing_mapping], [make_objects_batch] and
      [thread] are the functions of those names in [replication]; the
      callbacks handed to the last two are always [create_time_series],
      [update_time_series] and [copy_ts] and are not repeated in the
      request;
    - [time_time] is [int(time.time())]. *)
Inductive call : Type :=
| time_series_list (client : CogniteClient)
| assets_list (client : CogniteClient)
| time_series_delete (client : CogniteClient) (id : list (option Z))
| retry_create (client : CogniteClient) (objs : list TimeSeries)
| retry_update (client : CogniteClient) (objs : list TimeSeries)
| make_id_object_map (objects : list TimeSeries)
| existing_mapping (assets : list Asset)
| make_objects_batch (src_objects : list TimeSeries)
    (src_id_dst_obj : gmap Z TimeSeries) (src_dst_ids_assets : gmap Z Z)
    (project_src : string) (replicated_runtime : Z)
| thread (num_threads : Z) (src_objects : list TimeSeries)
    (src_id_dst_obj : gmap Z TimeSeries) (src_dst_ids_assets : gmap Z Z)
    (project_src : string) (replicated_runtime : Z) (client : CogniteClient)
| time_time.

(** What each request answers. *)
Definition resp (c : call) : Type :=
  match c with
  | time_series_list _ => list TimeSeries
  | assets_list _ => list Asset
  | time_series_delete _ _ => ()
  | retry_create _ _ => list TimeSeries
  | retry_update _ _ => list TimeSeries
  | make_id_object_map _ => gmap Z TimeSeries
  | existing_mapping _ => gmap Z Z
  | make_objects_batch _ _ _ _ _ =>
      (list TimeSeries * list TimeSeries * list TimeSeries)%type
  | thread _ _ _ _ _ _ _ => ()
  | time_time => Z
  end.

Inductive prog (A : Type) : Type :=
| Ret (a : A)
| Throw (e : exn)
| Do (c : call) (k : resp c -> prog A).

Arguments Ret {A} a.
Arguments Throw {A} e.
Arguments Do {A} c k.

Fixpoint bind {A B} (p : prog A) (f : A -> prog B) : prog B :=
  match p with
  | Ret a => f a
  | Throw e => Throw e
  | Do c k => Do c (fun x => bind (k x) f)
  end.

Definition request (c : call) : prog (resp c) := Do c Ret.

Definition lift {A} (r : result A) : prog A :=
  match r with
  | Ok a => Ret a
  | Raise e => Throw e
  end.

Notation "x <- p ;; q" := (bind p (fun x => q))
  (at level 100, p at next level, right associativity).
Notation "p ;;; q" := (bind p (fun _ => q))
  (at level 100, right associativity).

(** An environment answers a request from its state, with a value or an
    exception, and moves to a new state. *)
Definition handler (S : Type) : Type :=
  forall c : call, S -> result (resp c) * S.

(** Running a program: the requests issued, in order, the outcome, and
    the final state of the environment. *)
Fixpoint run {S A} (env : handler S) (p : prog A) (s : S)
  : list call * result A * S :=
  match p with
  | Ret a => ([], Ok a, s)
  | Throw e => ([], Raise e, s)
  | Do c k =>
      match env c s with
      | (Ok x, s') =>
          let '(t, r, s'') := run env (k x) s' in (c :: t, r, s'')
      | (Raise e, s') => ([c], Raise e, s')
      end
  end.

Definition trace {S A} (env : handler S) (p : prog A) (s : S) : list call :=
  fst (fst (run env p s)).

Definition outcome {S A} (env : handler S) (p : prog A) (s : S) : result A :=
  snd (fst (run env p s)).

(** Sequencing two runs: the second starts where the first ended, if it
    ended normally. *)
Definition then_run {S A B} (env : handler S)
    (first : list call * result A * S) (f : A -> prog B)
  : list call * result B * S :=
  match first with
  | (t, Ok a, s') =>
      let '(t', r, s'') := run env (f a) s' in (t ++ t', r, s'')
  | (t, Raise e, s') => (t, Raise e, s')
  end.

(** ** The module's effectful functions *)

Definition copy_ts (src_ts : list TimeSeries)
    (src_id_dst_ts : gmap Z TimeSeries) (src_dst_ids_assets : gmap Z Z)
    (project_src : string) (runtime : Z) (client : CogniteClient)
  : prog () :=
  batch <- request (make_objects_batch src_ts src_id_dst_ts
                      src_dst_ids_assets project_src runtime) ;;
  let '(create_ts, update_ts, unchanged_ts) := batch in
  (match create_ts with
   | _ :: _ => request (retry_create client create_ts) ;;; Ret ()
   | [] => Ret ()
   end) ;;;
  (match update_ts with
   | _ :: _ => request (retry_update client update_ts) ;;; Ret ()
   | [] => Ret ()
   end).

Definition remove_not_replicated_in_dst (client_dst : CogniteClient)
  : prog (list (option Z)) :=
  dst_list <- request (time_series_list client_dst) ;;
  not_copied_list <- lift (not_copied_loop dst_list [] []) ;;
  request (time_series_delete client_dst not_copied_list) ;;;
  Ret not_copied_list.

Definition remove_replicated_if_not_in_src (client_src client_dst : CogniteClient)
  : prog (list (option Z)) :=
  src_list <- request (time_series_list client_src) ;;
  let src_ids := src_ids_of src_list in
  ts_dst_list <- request (time_series_list client_dst) ;;
  dst_id_list <- lift (dst_id_list_loop ts_dst_list []) ;;
  let diff_list := diff_list_of src_ids dst_id_list in
  request (time_series_delete client_dst diff_list) ;;;
  Ret diff_list.

Definition replicate (client_src client_dst : CogniteClient)
    (batch_size num_threads : Z)
    (delete_replicated_if_not_in_src delete_not_replicated_in_dst : bool)
  : prog () :=
  let project_src := config_project client_src in
  ts_src <- request (time_series_list client_src) ;;
  ts_dst <- request (time_series_list client_dst) ;;
  src_id_dst_ts <- request (make_id_object_map ts_dst) ;;
  assets_dst <- request (assets_list client_dst) ;;
  src_dst_ids_assets <- request (existing_mapping assets_dst) ;;
  ts_src_not_service <- lift (filter_away_service_account_ts ts_src) ;;
  now <- request time_time ;;
  let replicated_runtime := now * 1000 in
  (if Z.of_nat (length ts_src_not_service) >? batch_size
   then request (thread num_threads ts_src_not_service src_id_dst_ts
                   src_dst_ids_assets project_src replicated_runtime
                   client_dst)
   else copy_ts ts_src_not_service src_id_dst_ts src_dst_ids_assets
          project_src replicated_runtime client_dst) ;;;
  (if delete_replicated_if_not_in_src
   then remove_replicated_if_not_in_src client_src client_dst ;;; Ret ()
   else Ret ()) ;;;
  (if delete_not_replicated_in_dst
   then remove_not_replicated_in_dst client_dst ;;; Ret ()
   else Ret ()).


(** ** Vocabulary of the statements *)

(** What one destination record contributes to the dict comprehension of
    the stale-replica sweep: nothing ([None]) when the test is false, the
    parsed [_replicatedInternalId] when it is true, an exception when the
    subscript or [int] raises. *)
Definition entry (ts : TimeSeries) : result (option Z) :=
  rbind (metadata_and ts "_replicatedInternalId") (fun c =>
  if c
  then rbind (subscript (metadata ts) "_replicatedInternalId") (fun v =>
       rbind (Py.int v) (fun k => Ok (Some k)))
  else Ok None).

(** The value a dict holds for a key. *)
Fixpoint value_of {V} (d : list (Z * V)) (k : Z) : option V :=
  match d with
  | [] => None
  | (k', v) :: d' => if k =? k' then Some v else value_of d' k
  end.

(** [ts] is the last record of the listing to contribute key [k]. *)
Definition last_with (l : list TimeSeries) (k : Z) (ts : TimeSeries) : Prop :=
  exists pre post,
    l = pre ++ ts :: post /\
    entry ts = Ok (Some k) /\
    forall ts', In ts' post -> entry ts' <> Ok (Some k).

(** No record of the listing contributes key [k]. *)
Definition absent_key (l : list TimeSeries) (k : Z) : Prop :=
  forall ts, In ts l -> entry ts <> Ok (Some k).

(** The metadata has the key, whatever the value. *)
Definition has_key (ts : TimeSeries) (key : string) : Prop :=
  exists d v, metadata ts = Some d /\ d !! key = Some v.

(** A static property of a program: every request it can issue, under
    any answers, satisfies [P]. *)
Fixpoint only {A} (P : call -> Prop) (p : prog A) : Prop :=
  match p with
  | Ret _ => True
  | Throw _ => True
  | Do c k => P c /\ forall x, only P (k x)
  end.

Definition is_delete (c : call) : bool :=
  match c with time_series_delete _ _ => true | _ => false end.

Definition is_batch (c : call) : bool :=
  match c with make_objects_batch _ _ _ _ _ => true | _ => false end.

Definition is_thread (c : call) : bool :=
  match c with thread _ _ _ _ _ _ _ => true | _ => false end.

(** A run that comes after the requests [t0]. *)
Definition after {S A} (t0 : list call) (x : list call * result A * S)
  : list call * result A * S :=
  let '(t, r, s) := x in (t0 ++ t, r, s).

(** The choice of lines 229-248, on the filtered source list. *)
Definition dispatch (ts_src_not_service : list TimeSeries)
    (src_id_dst_ts : gmap Z TimeSeries) (src_dst_ids_assets : gmap Z Z)
    (project_src : string) (replicated_runtime : Z)
    (client_dst : CogniteClient) (batch_size num_threads : Z) : prog () :=
  if Z.of_nat (length ts_src_not_service) >? batch_size
  then request (thread num_threads ts_src_not_service src_id_dst_ts
                  src_dst_ids_assets project_src replicated_runtime
                  client_dst)
  else copy_ts ts_src_not_service src_id_dst_ts src_dst_ids_assets
         project_src replicated_runtime client_dst.

(** The part of [replicate] that the delete flags guard (lines 255-266). *)
Definition flagged_sweeps (client_src client_dst : CogniteClient)
    (delete_replicated_if_not_in_src delete_not_replicated_in_dst : bool)
  : prog () :=
  (if delete_replicated_if_not_in_src
   then remove_replicated_if_not_in_src client_src client_dst ;;; Ret ()
   else Ret ()) ;;;
  (if delete_not_replicated_in_dst
   then remove_not_replicated_in_dst client_dst ;;; Ret ()
   else Ret ()).

(** ** A small world to run the module against *)

(** Two stores, told apart by the client handle, and a clock.  The
    functions of [replication] are answered in the simplest way: no
    object was replicated before, every source object is to be created. *)
Record world : Type := mkWorld {
  listing : nat -> list TimeSeries;
  assets : list Asset;
  clock : Z
}.

Definition delete_ids (ids : list (option Z)) (l : list TimeSeries)
  : list TimeSeries :=
  filter (fun ts => ts_id ts ∉ ids) l.

Definition world_env : handler world :=
  fun c w =>
    match c return result (resp c) * world with
    | time_series_list cl => (Ok (listing w (handle cl)), w)
    | assets_list _ => (Ok (assets w), w)
    | time_series_delete cl ids =>
        (Ok (),
         mkWorld (fun n => if Nat.eqb n (handle cl)
                           then delete_ids ids (listing w n)
                           else listing w n)
                 (assets w) (clock w))
    | retry_create cl objs =>
        (Ok objs,
         mkWorld (fun n => if Nat.eqb n (handle cl)
                           then listing w n ++ objs
                           else listing w n)
                 (assets w) (clock w))
    | retry_update _ objs => (Ok objs, w)
    | make_id_object_map _ => (Ok ∅, w)
    | existing_mapping _ => (Ok ∅, w)
    | make_objects_batch src_objects _ _ _ _ => (Ok (src_objects, [], []), w)
    | thread _ _ _ _ _ _ _ => (Ok (), w)
    | time_time => (Ok (clock w), w)
    end.

Definition blank : TimeSeries :=
  mkTimeSeries None None None None None None None None None None None.

(** A destination record with id [i] and the given metadata. *)
Definition stored (i : Z) (md : option (gmap string string)) : TimeSeries :=
  set_metadata md (mkTimeSeries (Some i) None None None None None None None
                     None None None).

(** A replica of source object [k]: all three provenance keys. *)
Definition replica (i : Z) (k : string) : TimeSeries :=
  stored i (Some (<["_replicatedInternalId" := k]>
                  (<["_replicatedSource" := "src"]>
                   (<["_replicatedTime" := "1000"]> ∅)))).

Definition named (i : Z) (n : string) : TimeSeries :=
  set_name (Some n) (mkTimeSeries (Some i) None None None None None None None
                       None None None).

Definition src_client : CogniteClient := mkClient 0 "src".
Definition dst_client : CogniteClient := mkClient 1 "dst".

Definition two_stores (src dst : list TimeSeries) : world :=
  mkWorld (fun n => if Nat.eqb n 0 then src else dst) [] 1573000000.

(** The listings of the spec's stale-sweep example: source ids 1 and 2,
    replicas of 1, 2 and 3. *)
Definition spec_src : list TimeSeries := [stored 1 None; stored 2 None].
Definition spec_dst : list TimeSeries :=
  [replica 10 "1"; replica 20 "2"; replica 30 "3"].

(** Two replicas of the same source object, which is gone. *)
Definition dup_dst : list TimeSeries := [replica 10 "3"; replica 11 "3"].

(** A source store with two ordinary time series. *)
Definition small_src : list TimeSeries := [named 1 "flow"; named 2 "level"].

(** A provenance stamp to instantiate [new_metadata] with. *)
Definition stamp (src_ts : TimeSeries) (project_src : string) (runtime : Z)
  : gmap string string :=
  <["_replicatedSource" := project_src]> (default ∅ (metadata src_ts)).

(** A source object whose parent asset is 99, its stale replica, and a
    store holding the first at reference 0 and the second at 1. *)
Definition pump : TimeSeries :=
  {| ts_id := Some 42;
     external_id := Some "pump-7";
     name := Some "pump_pressure";
     is_string := Some false;
     metadata := None;
     unit := Some "bar";
     asset_id := Some 99;
     is_step := Some false;
     description := Some "discharge pressure";
     security_categories := None;
     legacy_name := None |}.

Definition pump_replica : TimeSeries :=
  {| ts_id := Some 4200;
     external_id := Some "pump-7";
     name := Some "pump_pressure_old";
     is_string := Some false;
     metadata := Some (<["_replicatedInternalId" := "42"]> ∅);
     unit := Some "psi";
     asset_id := Some 7;
     is_step := Some false;
     description := None;
     security_categories := None;
     legacy_name := Some "pump-7" |}.

Definition two_objects : heap :=
  fun r => if Nat.eqb r 0 then pump else pump_replica.

(** ** Vocabulary of the further properties *)

(** The metadata is a non-empty dict without the key: the subscript of
    [ts.metadata and ts.metadata[key]] raises. *)
Definition lacks_key (ts : TimeSeries) (key : string) : Prop :=
  exists d, metadata ts = Some d /\ d <> ∅ /\ d !! key = None.

(** The test [ts.metadata and ts.metadata[key]] is false: no metadata, an
    empty dict, or the empty string under the key. *)
Definition untagged (ts : TimeSeries) (key : string) : Prop :=
  metadata ts = None \/ metadata ts = Some ∅ \/
  exists d, metadata ts = Some d /\ d !! key = Some "".

(** The name is a string without the service account marker. *)
Definition clean_name (ts : TimeSeries) : Prop :=
  exists n, name ts = Some n /\
            Py.contains "service_account_metrics" n = false.


(** The requests [copy_ts] may issue. *)
Definition copy_ts_request (src_ts : list TimeSeries)
    (src_id_dst_ts : gmap Z TimeSeries) (src_dst_ids_assets : gmap Z Z)
    (project_src : string) (runtime : Z) (client : CogniteClient)
    (c : call) : Prop :=
  c = make_objects_batch src_ts src_id_dst_ts src_dst_ids_assets
        project_src runtime \/
  (exists objs, objs <> [] /\ c = retry_create client objs) \/
  (exists objs, objs <> [] /\ c = retry_update client objs).

(** What [replicate] hands to [copy_ts] or [replication.thread]: only
    objects with a clean name, the project of the source client, a run
    time in whole seconds expressed in milliseconds, the destination
    client. *)
Definition handed_over (client_src client_dst : CogniteClient) (c : call)
  : Prop :=
  match c with
  | make_objects_batch src_objects _ _ project_src replicated_runtime =>
      Forall clean_name src_objects /\
      project_src = config_project client_src /\
      (1000 | replicated_runtime)
  | thread _ src_objects _ _ project_src replicated_runtime client =>
      Forall clean_name src_objects /\
      project_src = config_project client_src /\
      (1000 | replicated_runtime) /\
      client = client_dst
  | retry_create client _ => client = client_dst
  | retry_update client _ => client = client_dst
  | _ => True
  end.

(** A destination listing with an unparseable replica after a record
    that was created by hand. *)
Definition manual_then_bad : list TimeSeries :=
  [replica 10 "1"; stored 11 (Some (<["owner" := "ops"]> ∅));
   replica 12 "abc"].

(** A source object whose asset id is 0. *)
Definition rootless : TimeSeries := set_asset_id (Some 0) pump.

(** The small world, except that every bulk create is refused. *)
Definition refusing_env : handler world :=
  fun c w =>
    match c return result (resp c) * world with
    | retry_create _ _ => (Raise (CollaboratorError 429), w)
    | c' => world_env c' w
    end.

(** A source listing in which one time series has no name. *)
Definition nameless_src : list TimeSeries := [named 1 "flow"; stored 2 None].

(** * Properties *)

(** ** Built-ins *)

Example int_examples :
  Py.int "3" = Ok 3 /\ Py.int " -12 " = Ok (-12) /\ Py.int "1_000" = Ok 1000 /\
  Py.int "007" = Ok 7 /\
  Py.int "" = Raise ValueError /\ Py.int "abc" = Raise ValueError /\
  Py.int "1__0" = Raise ValueError /\ Py.int "_1" = Raise ValueError /\
  Py.int "1_" = Raise ValueError /\ Py.int "+ 1" = Raise ValueError /\
  Py.int "3.0" = Raise ValueError.
Proof. repeat split; reflexivity. Qed.

Lemma startswith_spec (sub s : string) :
  Py.startswith sub s = true <-> exists post, s = (sub ++ post)%string.
Proof.
  revert s. induction sub as [|a sub IH]; intros s; simpl.
  - split; [intros _; exists s; reflexivity | reflexivity].
  - destruct s as [|b s].
    + split; [discriminate | intros [post H]; discriminate].
    + rewrite andb_true_iff, Ascii.eqb_eq, IH. split.
      * intros [-> [post ->]]. exists post. reflexivity.
      * intros [post H]. injection H as -> ->. split; [reflexivity | eauto].
Qed.

Lemma contains_spec (sub s : string) :
  Py.contains sub s = true <->
  exists pre post, s = (pre ++ sub ++ post)%string.
Proof.
  induction s as [|c s IH].
  - simpl. rewrite orb_false_r, startswith_spec. split.
    + intros [post H]. exists EmptyString, post. exact H.
    + intros [pre [post H]]. destruct pre; [eauto | discriminate].
  - cbn [Py.contains]. rewrite orb_true_iff, startswith_spec, IH. split.
    + intros [[post H] | [pre [post H]]].
      * exists EmptyString, post. exact H.
      * exists (String c pre), post. simpl. now rewrite H.
    + intros [pre [post H]]. destruct pre as [|c' pre].
      * left. exists post. exact H.
      * right. simpl in H. injection H as _ H. eauto.
Qed.

(** ** Running programs *)

Lemma run_bind {S A B} (env : handler S) (p : prog A) (f : A -> prog B) s :
  run env (bind p f) s = then_run env (run env p s) f.
Proof.
  revert s. induction p as [a | e | c k IH]; intros s; simpl.
  - destruct (run env (f a) s) as [[t r] s']. reflexivity.
  - reflexivity.
  - destruct (env c s) as [[x | e] s']; [| reflexivity].
    rewrite IH. unfold then_run.
    destruct (run env (k x) s') as [[t [a | e]] s'']; [| reflexivity].
    destruct (run env (f a) s'') as [[t' r'] s3]. reflexivity.
Qed.

Lemma run_request {S} (env : handler S) (c : call) s :
  run env (request c) s =
  match env c s with
  | (Ok x, s') => ([c], Ok x, s')
  | (Raise e, s') => ([c], Raise e, s')
  end.
Proof. unfold request. simpl. destruct (env c s) as [[x | e] s']; reflexivity. Qed.

Lemma run_lift {S A} (env : handler S) (r : result A) s :
  run env (lift r) s = ([], r, s).
Proof. destruct r; reflexivity. Qed.

(** If two continuations differ by a suffix, so do the programs that
    end in them. *)
Lemma run_bind_suffix {S A B C} (env : handler S) (p : prog A)
    (q : A -> prog C) (q' : A -> prog B) (f : B -> prog C) :
  (forall a s, run env (q a) s = then_run env (run env (q' a) s) f) ->
  forall s, run env (bind p q) s = then_run env (run env (bind p q') s) f.
Proof.
  intros Hq s. rewrite !run_bind.
  destruct (run env p s) as [[t [a | e]] s']; simpl; [| reflexivity].
  rewrite Hq. destruct (run env (q' a) s') as [[t' [b | e]] s'']; simpl.
  - destruct (run env (f b) s'') as [[t'' r] s3]. now rewrite app_assoc.
  - reflexivity.
Qed.

Lemma only_bind {A B} (P : call -> Prop) (p : prog A) (f : A -> prog B) :
  only P p -> (forall a, only P (f a)) -> only P (bind p f).
Proof.
  intros Hp Hf. induction p as [a | e | c k IH]; simpl in *; auto.
  destruct Hp as [Hc Hk]. split; auto.
Qed.

Lemma only_request (P : call -> Prop) (c : call) : P c -> only P (request c).
Proof. intros H. simpl. auto. Qed.

Lemma only_lift {A} (P : call -> Prop) (r : result A) : only P (lift r).
Proof. destruct r; exact I. Qed.

Lemma only_trace {S A} (P : call -> Prop) (p : prog A) :
  only P p -> forall (env : handler S) s, Forall P (trace env p s).
Proof.
  unfold trace. induction p as [a | e | c k IH]; intros Hp env s; simpl.
  - constructor.
  - constructor.
  - destruct Hp as [Hc Hk]. destruct (env c s) as [[x | e] s'].
    + specialize (IH x (Hk x) env s').
      destruct (run env (k x) s') as [[t r] s'']. simpl in *.
      constructor; assumption.
    + simpl. constructor; [assumption | constructor].
Qed.

(** ** The service account filter *)

Lemma filter_away_as_filter (ts_src : list TimeSeries) :
  (forall ts, In ts ts_src -> exists n, name ts = Some n) ->
  filter_away_service_account_ts ts_src =
  Ok (List.filter
        (fun ts => match name ts with
                   | Some n => negb (Py.contains "service_account_metrics" n)
                   | None => true
                   end) ts_src).
Proof.
  induction ts_src as [|ts rest IH]; intros Hn; simpl; [reflexivity |].
  destruct (Hn ts (or_introl eq_refl)) as [n Hts].
  unfold not_service_account. rewrite Hts. simpl.
  rewrite IH by (intros; apply Hn; now right). simpl.
  reflexivity.
Qed.

(** C10. On a list whose elements all have a string name,
    [filter_away_service_account_ts] succeeds and returns the input with
    exactly the elements removed whose name has
    ["service_account_metrics"] as a substring, the others kept in input
    order: the result is the input filtered by any test that decides
    "the name does not contain the substring". *)
Theorem filter_away_service_account_ts_spec (ts_src : list TimeSeries) :
  (forall ts, In ts ts_src -> exists n, name ts = Some n) ->
  exists out,
    filter_away_service_account_ts ts_src = Ok out /\
    forall keep : TimeSeries -> bool,
      (forall ts n, name ts = Some n ->
         (keep ts = true <->
          ~ exists pre post,
              n = (pre ++ "service_account_metrics" ++ post)%string)) ->
      out = List.filter keep ts_src.
Proof.
  intros Hn. eexists. split; [apply filter_away_as_filter, Hn |].
  intros keep Hkeep. apply List.filter_ext_in. intros ts Hin.
  destruct (Hn ts Hin) as [n Hts]. rewrite Hts.
  specialize (Hkeep ts n Hts). rewrite <- contains_spec in Hkeep.
  destruct (Py.contains "service_account_metrics" n), (keep ts);
    simpl; try reflexivity.
  - exfalso. apply (proj1 Hkeep); reflexivity.
  - symmetry. apply Hkeep. discriminate.
Qed.

Lemma filter_away_service_account_ts_spec_witness :
  exists out,
    filter_away_service_account_ts
      [named 1 "pump_pressure"; named 2 "xservice_account_metricsy";
       named 3 "service_account_metric"] = Ok out /\
    forall keep : TimeSeries -> bool,
      (forall ts n, name ts = Some n ->
         (keep ts = true <->
          ~ exists pre post,
              n = (pre ++ "service_account_metrics" ++ post)%string)) ->
      out = List.filter keep
              [named 1 "pump_pressure"; named 2 "xservice_account_metricsy";
               named 3 "service_account_metric"].
Proof.
  apply (filter_away_service_account_ts_spec
           [named 1 "pump_pressure"; named 2 "xservice_account_metricsy";
            named 3 "service_account_metric"]).
  intros ts [<- | [<- | [<- | []]]]; simpl; eauto.
Defined.

Example filter_away_by_containment :
  filter_away_service_account_ts
    [named 1 "pump_pressure"; named 2 "xservice_account_metricsy";
     named 3 "service_account_metric"] =
  Ok [named 1 "pump_pressure"; named 3 "service_account_metric"].
Proof. reflexivity. Qed.

Example filter_away_none_name :
  filter_away_service_account_ts [named 1 "a"; blank] = Raise TypeError.
Proof. reflexivity. Qed.

(** ** The test [ts.metadata and ts.metadata[key]] *)

Lemma metadata_and_true (ts : TimeSeries) (key : string) :
  metadata_and ts key = Ok true <->
  exists d v, metadata ts = Some d /\ d !! key = Some v /\ v <> "".
Proof.
  unfold metadata_and, subscript, Py.getitem, Py.dict_truthy.
  destruct (metadata ts) as [d |]; simpl.
  - case_bool_decide as Hd; simpl.
    + subst d. split; [discriminate |].
      intros (d & v & [= <-] & Hv & _). rewrite lookup_empty in Hv. discriminate.
    + destruct (d !! key) as [v |] eqn:Hv; simpl.
      * destruct v; simpl; split.
        -- discriminate.
        -- intros (? & ? & [= <-] & Hv' & Hne). rewrite Hv in Hv'.
           injection Hv' as <-. now contradict Hne.
        -- intros _. eexists _, _. repeat split; eauto; discriminate.
        -- reflexivity.
      * split; [discriminate |].
        intros (? & ? & [= <-] & Hv' & _). rewrite Hv in Hv'. discriminate.
  - split; [discriminate | intros (? & ? & ? & _); discriminate].
Qed.

Lemma metadata_and_false (ts : TimeSeries) (key : string) :
  metadata_and ts key = Ok false <->
  metadata ts = None \/ metadata ts = Some ∅ \/
  exists d, metadata ts = Some d /\ d !! key = Some "".
Proof.
  unfold metadata_and, subscript, Py.getitem, Py.dict_truthy.
  destruct (metadata ts) as [d |]; simpl; [| tauto].
  case_bool_decide as Hd; simpl.
  - subst d. tauto.
  - destruct (d !! key) as [v |] eqn:Hv; simpl.
    + destruct v; simpl.
      * split; [eauto 6 | reflexivity].
      * split; [discriminate |].
        intros [? | [[= ->] | (? & [= <-] & Hv')]]; try done.
        rewrite Hv in Hv'. discriminate.
    + split; [discriminate |].
      intros [? | [[= ->] | (? & [= <-] & Hv')]]; try done.
      rewrite Hv in Hv'. discriminate.
Qed.

Lemma metadata_and_raise (ts : TimeSeries) (key : string) (e : exn) :
  metadata_and ts key = Raise e <->
  e = KeyError key /\
  exists d, metadata ts = Some d /\ d <> ∅ /\ d !! key = None.
Proof.
  unfold metadata_and, subscript, Py.getitem, Py.dict_truthy.
  destruct (metadata ts) as [d |]; simpl.
  - case_bool_decide as Hd; simpl.
    + split; [discriminate | intros (_ & ? & [= <-] & ? & _); done].
    + destruct (d !! key) as [v |] eqn:Hv; simpl.
      * split; [discriminate |].
        intros (_ & ? & [= <-] & _ & Hv'). rewrite Hv in Hv'. discriminate.
      * split; [intros [= <-]; eauto 6 | intros [-> _]; reflexivity].
  - split; [discriminate | intros (_ & ? & ? & _); discriminate].
Qed.

(** ** The orphan sweep *)

(** Where no test raises, the loop returns the ids of the records whose
    test is false, in listing order. *)
Lemma not_copied_loop_ok (dst_list : list TimeSeries)
    (not_copied_list copied_list : list (option Z)) :
  (forall ts, In ts dst_list ->
     is_ok (metadata_and ts "_replicatedSource") = true) ->
  not_copied_loop dst_list not_copied_list copied_list =
  Ok (not_copied_list ++
      map ts_id
        (List.filter
           (fun ts => match metadata_and ts "_replicatedSource" with
                      | Ok c => negb c
                      | Raise _ => false
                      end) dst_list)).
Proof.
  revert not_copied_list copied_list.
  induction dst_list as [|ts rest IH]; intros nc cp Hok; simpl.
  - now rewrite app_nil_r.
  - pose proof (Hok ts (or_introl eq_refl)) as Hts.
    destruct (metadata_and ts "_replicatedSource") as [[|] | e];
      simpl in *; try discriminate.
    + apply IH. intros; apply Hok; now right.
    + rewrite IH by (intros; apply Hok; now right).
      now rewrite <- app_assoc.
Qed.

(** The example of the spec: one record with provenance metadata, one
    without any metadata; the sweep deletes the second and only it. *)
Example orphan_sweep_spec_example :
  let dst := [replica 10 "1"; stored 11 None] in
  let '(t, out, w) :=
    run world_env (remove_not_replicated_in_dst dst_client) (two_stores [] dst)
  in
  t = [time_series_list dst_client; time_series_delete dst_client [Some 11]] /\
  out = Ok [Some 11] /\
  listing w 1%nat = [replica 10 "1"].
Proof. vm_compute. repeat split; reflexivity. Qed.

(** C3. The orphan sweep on a destination listing that holds a replica
    and a record whose metadata is [{"owner": "ops"}]: the second record
    lacks [_replicatedSource], so it is the one to delete; the sweep
    raises [KeyError] at the subscript instead, after the listing and
    before any delete request, and the store is unchanged. *)
Theorem orphan_sweep_key_error :
  let manual := stored 11 (Some (<["owner" := "ops"]> ∅)) in
  let w := two_stores [] [replica 10 "1"; manual] in
  ~ has_key manual "_replicatedSource" /\
  run world_env (remove_not_replicated_in_dst dst_client) w =
  ([time_series_list dst_client], Raise (KeyError "_replicatedSource"), w).
Proof.
  split.
  - intros (d & v & [= <-] & Hv). vm_compute in Hv. discriminate.
  - reflexivity.
Qed.

(** C4. The orphan sweep on a destination listing that holds a replica
    and a record whose metadata is [{"_replicatedSource": ""}]: the key
    is present, yet the test takes the truth value of the empty string,
    and the record is deleted. *)
Theorem orphan_sweep_deletes_empty_provenance :
  let tagged := stored 13 (Some (<["_replicatedSource" := ""]> ∅)) in
  let w := two_stores [] [replica 10 "1"; tagged] in
  has_key tagged "_replicatedSource" /\
  metadata_and tagged "_replicatedSource" = Ok false /\
  trace world_env (remove_not_replicated_in_dst dst_client) w =
    [time_series_list dst_client; time_series_delete dst_client [Some 13]] /\
  outcome world_env (remove_not_replicated_in_dst dst_client) w =
    Ok [Some 13] /\
  listing (snd (run world_env (remove_not_replicated_in_dst dst_client) w))
    1%nat = [replica 10 "1"].
Proof.
  repeat split; try reflexivity.
  eexists _, "". split; reflexivity.
Qed.

(** ** The stale-replica sweep: the dict and the delete list *)

Lemma dst_id_list_loop_step (ts : TimeSeries) (rest : list TimeSeries)
    (d : list (Z * option Z)) :
  dst_id_list_loop (ts :: rest) d =
  rbind (entry ts) (fun e =>
    dst_id_list_loop rest
      (match e with
       | Some k => Py.setitem k (ts_id ts) d
       | None => d
       end)).
Proof.
  unfold entry. simpl.
  destruct (metadata_and ts "_replicatedInternalId") as [[|] | e]; simpl;
    try reflexivity.
  destruct (subscript (metadata ts) "_replicatedInternalId"); simpl;
    try reflexivity.
  destruct (Py.int a); reflexivity.
Qed.

Lemma dst_id_list_loop_app (l1 l2 : list TimeSeries) (d : list (Z * option Z)) :
  dst_id_list_loop (l1 ++ l2) d =
  rbind (dst_id_list_loop l1 d) (dst_id_list_loop l2).
Proof.
  revert d. induction l1 as [|ts l1 IH]; intros d; [reflexivity |].
  rewrite <- app_comm_cons, !dst_id_list_loop_step.
  destruct (entry ts) as [e |]; simpl; [apply IH | reflexivity].
Qed.

Lemma value_of_setitem {V} (k k' : Z) (v : V) (d : list (Z * V)) :
  value_of (Py.setitem k v d) k' =
  if k' =? k then Some v else value_of d k'.
Proof.
  induction d as [|[k0 v0] d IH]; simpl.
  - reflexivity.
  - destruct (k =? k0) eqn:E; simpl.
    + apply Z.eqb_eq in E. subst k0. destruct (k' =? k); reflexivity.
    + rewrite IH. destruct (k' =? k0) eqn:E'; [| reflexivity].
      apply Z.eqb_eq in E'. subst k0.
      destruct (k' =? k) eqn:E''; [| reflexivity].
      apply Z.eqb_eq in E''. subst k'. rewrite Z.eqb_refl in E. discriminate.
Qed.

Lemma keys_setitem {V} (k k' : Z) (v : V) (d : list (Z * V)) :
  In k' (map fst (Py.setitem k v d)) <-> k' = k \/ In k' (map fst d).
Proof.
  induction d as [|[k0 v0] d IH]; simpl.
  - intuition.
  - destruct (k =? k0) eqn:E; simpl.
    + apply Z.eqb_eq in E. subst k0. intuition.
    + rewrite IH. intuition.
Qed.

Lemma NoDup_keys_setitem {V} (k : Z) (v : V) (d : list (Z * V)) :
  NoDup (map fst d) -> NoDup (map fst (Py.setitem k v d)).
Proof.
  induction d as [|[k0 v0] d IH]; simpl; intros Hnd.
  - apply NoDup_singleton.
  - apply NoDup_cons in Hnd as [Hnin Hnd].
    destruct (k =? k0) eqn:E; simpl.
    + apply Z.eqb_eq in E. subst k0. now apply NoDup_cons.
    + apply Z.eqb_neq in E. apply NoDup_cons. split; [| auto].
      rewrite list_elem_of_In, keys_setitem, <- list_elem_of_In.
      intros [-> | Hin]; [now apply E | now apply Hnin].
Qed.

Lemma in_value_of {V} (d : list (Z * V)) (k : Z) (v : V) :
  NoDup (map fst d) -> (In (k, v) d <-> value_of d k = Some v).
Proof.
  induction d as [|[k0 v0] d IH]; simpl; intros Hnd.
  - split; [intros [] | discriminate].
  - apply NoDup_cons in Hnd as [Hnin Hnd].
    destruct (k =? k0) eqn:E.
    + apply Z.eqb_eq in E. subst k0. split.
      * intros [[= ->] | Hin]; [reflexivity |].
        exfalso. apply Hnin, list_elem_of_In.
        apply (in_map fst) in Hin. exact Hin.
      * intros [= ->]. now left.
    + apply Z.eqb_neq in E. rewrite <- (IH Hnd). split.
      * intros [[= -> ->] | Hin]; [now contradict E | exact Hin].
      * now right.
Qed.

Lemma dst_id_list_loop_NoDup (l : list TimeSeries) (d0 d : list (Z * option Z)) :
  dst_id_list_loop l d0 = Ok d -> NoDup (map fst d0) -> NoDup (map fst d).
Proof.
  revert d0. induction l as [|ts l IH]; intros d0 H Hnd.
  - injection H as <-. exact Hnd.
  - rewrite dst_id_list_loop_step in H.
    destruct (entry ts) as [[k |] | e]; simpl in H; try discriminate.
    + apply (IH _ H). now apply NoDup_keys_setitem.
    + now apply (IH _ H).
Qed.

Lemma last_with_cons (a : TimeSeries) (l : list TimeSeries) (k : Z)
    (ts : TimeSeries) :
  last_with (a :: l) k ts <->
  last_with l k ts \/ (ts = a /\ entry a = Ok (Some k) /\ absent_key l k).
Proof.
  unfold last_with, absent_key. split.
  - intros (pre & post & Hl & He & Hpost). destruct pre as [|a' pre].
    + injection Hl as -> ->. right. auto.
    + injection Hl as -> ->. left. eauto 6.
  - intros [(pre & post & -> & He & Hpost) | (-> & He & Hl)].
    + exists (a :: pre), post. auto.
    + exists [], l. auto.
Qed.

Lemma last_with_in (l : list TimeSeries) (k : Z) (ts : TimeSeries) :
  last_with l k ts -> In ts l /\ entry ts = Ok (Some k).
Proof.
  intros (pre & post & -> & He & _). split; [| exact He].
  apply in_or_app. right. now left.
Qed.

(** The dict built from a listing: key [k] is bound to the id of the
    last record contributing [k], or to what it held before when no
    record contributes [k]. *)
Lemma dst_id_list_loop_value (l : list TimeSeries) :
  forall (d0 d : list (Z * option Z)),
    dst_id_list_loop l d0 = Ok d ->
    forall k v,
      value_of d k = Some v <->
      (exists ts, last_with l k ts /\ v = ts_id ts) \/
      (absent_key l k /\ value_of d0 k = Some v).
Proof.
  induction l as [|a l IH]; intros d0 d H k v.
  - injection H as <-. split.
    + intros Hv. right. split; [intros ? [] | exact Hv].
    + intros [(ts & (pre & post & Hl & _) & _) | [_ Hv]]; [| exact Hv].
      destruct pre; discriminate.
  - rewrite dst_id_list_loop_step in H.
    destruct (entry a) as [e |] eqn:Ea; simpl in H; [| discriminate].
    rewrite (IH _ _ H k v). setoid_rewrite last_with_cons.
    assert (Habs : absent_key (a :: l) k <->
                   entry a <> Ok (Some k) /\ absent_key l k).
    { unfold absent_key. split.
      - intros Hall. split; [apply Hall; now left |].
        intros ts Hin. apply Hall. now right.
      - intros [Ha Hl] ts [<- | Hin]; auto. }
    rewrite Habs. rewrite Ea. destruct e as [k0 |].
    + rewrite value_of_setitem. destruct (k =? k0) eqn:E.
      * apply Z.eqb_eq in E. subst k0. split.
        -- intros [(ts & Hts & ->) | [Hl [= <-]]]; [eauto |].
           left. exists a. auto.
        -- intros [(ts & [Hts | (-> & _ & Hl)] & ->) | [[Hne _] _]].
           ++ eauto.
           ++ auto.
           ++ now contradict Hne.
      * apply Z.eqb_neq in E. split.
        -- intros [(ts & Hts & ->) | [Hl Hv]]; [eauto |].
           right. repeat split; auto. intros [= ->]. now apply E.
        -- intros [(ts & [Hts | (-> & [= ->] & Hl)] & ->) | [[_ Hl] Hv]].
           ++ eauto.
           ++ now contradict E.
           ++ auto.
    + split.
      * intros [(ts & Hts & ->) | [Hl Hv]]; [eauto |].
        right. repeat split; auto; discriminate.
      * intros [(ts & [Hts | (-> & [=] & Hl)] & ->) | [[_ Hl] Hv]]; eauto.
Qed.

Lemma elem_of_src_ids_of (src_list : list TimeSeries) (k : Z) :
  Some k ∈ src_ids_of src_list <->
  exists ts, In ts src_list /\ ts_id ts = Some k.
Proof.
  unfold src_ids_of. rewrite elem_of_list_to_set, list_elem_of_fmap.
  setoid_rewrite list_elem_of_In. split.
  - intros (ts & Heq & Hin). eauto.
  - intros (ts & Hin & Heq). eauto.
Qed.

Lemma in_diff_list_of (src_ids : gset (option Z))
    (d : list (Z * option Z)) (x : option Z) :
  In x (diff_list_of src_ids d) <->
  exists k, In (k, x) d /\ Some k ∉ src_ids.
Proof.
  unfold diff_list_of.
  rewrite <- list_elem_of_In, list_elem_of_fmap.
  setoid_rewrite list_elem_of_filter. setoid_rewrite list_elem_of_In. split.
  - intros ([k v] & -> & Hk & Hin). simpl in *. eauto.
  - intros (k & Hin & Hk). exists (k, x). auto.
Qed.

(** The delete list of a listing on which no record raises: the ids of
    the last holders of the keys that are not source ids. *)
Lemma in_diff_list (src_ids : gset (option Z)) (dst_list : list TimeSeries)
    (d : list (Z * option Z)) (x : option Z) :
  dst_id_list_loop dst_list [] = Ok d ->
  (In x (diff_list_of src_ids d) <->
   exists ts k, last_with dst_list k ts /\ ts_id ts = x /\ Some k ∉ src_ids).
Proof.
  intros H. rewrite in_diff_list_of.
  assert (Hnd : NoDup (map fst d))
    by (eapply dst_id_list_loop_NoDup; [exact H | constructor]).
  split.
  - intros (k & Hin & Hk).
    apply (in_value_of _ _ _ Hnd) in Hin.
    apply (dst_id_list_loop_value _ _ _ H) in Hin
      as [(ts & Hts & ->) | [_ Hv]]; [eauto | discriminate].
  - intros (ts & k & Hts & <- & Hk). exists k. split; [| exact Hk].
    apply (in_value_of _ _ _ Hnd).
    apply (dst_id_list_loop_value _ _ _ H). eauto.
Qed.

Lemma entry_skip (ts : TimeSeries) :
  metadata ts = None \/ metadata ts = Some ∅ \/
  (exists d, metadata ts = Some d /\ d !! "_replicatedInternalId" = Some "") ->
  entry ts = Ok None.
Proof.
  intros H. apply metadata_and_false in H. unfold entry. now rewrite H.
Qed.

Lemma entry_unparseable (ts : TimeSeries) (d : gmap string string) (v : string) :
  metadata ts = Some d -> d !! "_replicatedInternalId" = Some v -> v <> "" ->
  Py.int_of_str v = None ->
  entry ts = Raise ValueError.
Proof.
  intros Hm Hv Hne Hint. unfold entry.
  assert (Ht : metadata_and ts "_replicatedInternalId" = Ok true)
    by (apply metadata_and_true; eauto).
  rewrite Ht. unfold subscript, Py.getitem, Py.int.
  rewrite Hm. simpl. rewrite Hv. simpl. now rewrite Hint.
Qed.

Lemma entry_raise (ts : TimeSeries) (e : exn) :
  entry ts = Raise e ->
  e = ValueError \/ e = KeyError "_replicatedInternalId".
Proof.
  unfold entry.
  destruct (metadata_and ts "_replicatedInternalId") as [[|] | e'] eqn:Ht;
    simpl; try discriminate.
  - apply metadata_and_true in Ht as (d & v & Hm & Hv & _).
    unfold subscript, Py.getitem, Py.int. rewrite Hm. simpl.
    rewrite Hv. simpl.
    destruct (Py.int_of_str v); simpl; [discriminate |].
    intros [= <-]. now left.
  - apply metadata_and_raise in Ht as [-> _]. intros [= <-]. now right.
Qed.

Lemma dst_id_list_loop_raise (l : list TimeSeries) (d : list (Z * option Z))
    (ts : TimeSeries) (e0 : exn) :
  In ts l -> entry ts = Raise e0 ->
  exists e ts', dst_id_list_loop l d = Raise e /\ In ts' l /\ entry ts' = Raise e.
Proof.
  revert d. induction l as [|a l IH]; intros d Hin He; [destruct Hin |].
  rewrite dst_id_list_loop_step.
  destruct (entry a) as [o | e] eqn:Ea; simpl.
  - destruct Hin as [-> | Hin]; [congruence |].
    destruct (IH (match o with
                  | Some k => Py.setitem k (ts_id a) d
                  | None => d
                  end) Hin He) as (e & ts' & Hl & Hin' & He').
    exists e, ts'. split; [exact Hl |]. split; [now right | exact He'].
  - exists e, a. split; [reflexivity |]. split; [now left | exact Ea].
Qed.

Lemma run_remove_replicated_if_not_in_src {S} (env : handler S)
    (client_src client_dst : CogniteClient) (s s1 s2 : S)
    (src_list dst_list : list TimeSeries) :
  env (time_series_list client_src) s = (Ok src_list, s1) ->
  env (time_series_list client_dst) s1 = (Ok dst_list, s2) ->
  run env (remove_replicated_if_not_in_src client_src client_dst) s =
  match dst_id_list_loop dst_list [] with
  | Ok d =>
      let diff := diff_list_of (src_ids_of src_list) d in
      ([time_series_list client_src; time_series_list client_dst;
        time_series_delete client_dst diff],
       match fst (env (time_series_delete client_dst diff) s2) with
       | Ok _ => Ok diff
       | Raise e => Raise e
       end,
       snd (env (time_series_delete client_dst diff) s2))
  | Raise e =>
      ([time_series_list client_src; time_series_list client_dst],
       Raise e, s2)
  end.
Proof.
  intros H1 H2. unfold remove_replicated_if_not_in_src. simpl.
  rewrite H1, H2.
  destruct (dst_id_list_loop dst_list []) as [d | e]; simpl; [| reflexivity].
  destruct (env (time_series_delete client_dst
                   (diff_list_of (src_ids_of src_list) d)) s2) as [[[] | e] s3];
    reflexivity.
Qed.

Lemma last_with_unique (l : list TimeSeries) (k : Z) (ts ts' : TimeSeries) :
  last_with l k ts -> last_with l k ts' -> ts = ts'.
Proof.
  intros (p & q & Hl & He & Hq) (p' & q' & Hl' & He' & Hq'). subst l.
  revert p' Hl'. induction p as [|x p IH]; intros [|y p'] Heq; simpl in Heq.
  - now injection Heq as ->.
  - injection Heq as -> ->. exfalso. apply (Hq ts'); [| exact He'].
    apply in_or_app. right. now left.
  - injection Heq as <- <-. exfalso. apply (Hq' ts); [| exact He].
    apply in_or_app. right. now left.
  - injection Heq as _ Heq. eauto.
Qed.

Lemma unique_keys_last_with (l : list TimeSeries) :
  (forall pre a mid b post k,
     l = pre ++ a :: mid ++ b :: post ->
     entry a = Ok (Some k) -> entry b <> Ok (Some k)) ->
  forall ts k, In ts l -> entry ts = Ok (Some k) -> last_with l k ts.
Proof.
  intros Huniq ts k Hin He.
  apply in_split in Hin as (pre & post & ->).
  exists pre, post. repeat split; auto.
  intros ts' Hin'. apply in_split in Hin' as (mid & post' & ->).
  eapply Huniq; eauto.
Qed.

Lemma NoDup_split_unique {A B} (f : A -> B) (p1 p2 q1 q2 : list A) (x y : A) :
  NoDup (map f (p1 ++ x :: q1)) ->
  p1 ++ x :: q1 = p2 ++ y :: q2 ->
  f x = f y ->
  p1 = p2 /\ x = y /\ q1 = q2.
Proof.
  revert p2. induction p1 as [|a p1 IH]; intros [|b p2] Hnd Heq Hf;
    simpl in *.
  - injection Heq as -> ->. auto.
  - injection Heq as -> ->. apply NoDup_cons in Hnd as [Hnin _].
    exfalso. apply Hnin. rewrite Hf, list_elem_of_In.
    apply in_map, in_or_app. right. now left.
  - injection Heq as -> <-. apply NoDup_cons in Hnd as [Hnin _].
    exfalso. apply Hnin. rewrite <- Hf, list_elem_of_In.
    apply in_map, in_or_app. right. now left.
  - injection Heq as -> Heq. apply NoDup_cons in Hnd as [_ Hnd].
    destruct (IH p2 Hnd Heq Hf) as (-> & -> & ->). auto.
Qed.

(** The example of the spec: source ids 1 and 2, replicas of 1, 2 and 3;
    the sweep deletes the replica of 3 and returns its destination id. *)
Example stale_sweep_spec_example :
  let w := two_stores spec_src spec_dst in
  let '(t, out, w') :=
    run world_env (remove_replicated_if_not_in_src src_client dst_client) w in
  t = [time_series_list src_client; time_series_list dst_client;
       time_series_delete dst_client [Some 30]] /\
  out = Ok [Some 30] /\
  listing w' 1%nat = [replica 10 "1"; replica 20 "2"].
Proof. vm_compute. repeat split; reflexivity. Qed.

(** C1, as stated, at two replicas of the vanished source object 3: both
    have a parsed id that is not a source id, only the later one is
    deleted. *)
Lemma stale_sweep_keeps_earlier_duplicate :
  let w := two_stores spec_src dup_dst in
  exists diff,
    outcome world_env
      (remove_replicated_if_not_in_src src_client dst_client) w = Ok diff /\
    ~ (forall ts, In ts dup_dst ->
         (In (ts_id ts) diff <->
          exists k, entry ts = Ok (Some k) /\
                    Some k ∉ src_ids_of spec_src)).
Proof.
  exists [Some 11]. split; [reflexivity |].
  intros H. destruct (H (replica 10 "3") (or_introl eq_refl)) as [_ H'].
  destruct H' as [[=] | []].
  exists 3. split; [reflexivity |].
  rewrite elem_of_src_ids_of. intros (ts & [<- | [<- | []]] & [=]).
Qed.

(** C1, amended. When no destination record raises, the stale-replica
    sweep issues one delete request and returns its id list; the list
    holds exactly the destination ids of the records that are the last,
    in listing order, to carry their parsed [_replicatedInternalId] and
    whose parsed id is not the id of a source record.  When no two
    destination records carry the same parsed id, these are all the
    records whose parsed id is not a source id.  On source ids 1, 2 and
    replicas of 1, 2, 3 the list is the id of the replica of 3. *)
Theorem stale_sweep_deletes_last_holders {S} (env : handler S)
    (client_src client_dst : CogniteClient) (s s1 s2 : S)
    (src_list dst_list : list TimeSeries) (d : list (Z * option Z)) :
  env (time_series_list client_src) s = (Ok src_list, s1) ->
  env (time_series_list client_dst) s1 = (Ok dst_list, s2) ->
  dst_id_list_loop dst_list [] = Ok d ->
  let diff := diff_list_of (src_ids_of src_list) d in
  let sweep := remove_replicated_if_not_in_src client_src client_dst in
  trace env sweep s =
    [time_series_list client_src; time_series_list client_dst;
     time_series_delete client_dst diff] /\
  (is_ok (fst (env (time_series_delete client_dst diff) s2)) = true ->
   outcome env sweep s = Ok diff) /\
  (forall x,
     In x diff <->
     exists ts k, last_with dst_list k ts /\ ts_id ts = x /\
                  ~ exists src, In src src_list /\ ts_id src = Some k) /\
  ((forall pre a mid b post k,
      dst_list = pre ++ a :: mid ++ b :: post ->
      entry a = Ok (Some k) -> entry b <> Ok (Some k)) ->
   forall x,
     In x diff <->
     exists ts k, In ts dst_list /\ entry ts = Ok (Some k) /\ ts_id ts = x /\
                  ~ exists src, In src src_list /\ ts_id src = Some k) /\
  (rbind (dst_id_list_loop spec_dst [])
     (fun d' => Ok (diff_list_of (src_ids_of spec_src) d')) = Ok [Some 30]).
Proof.
  intros H1 H2 Hd diff sweep.
  pose proof (run_remove_replicated_if_not_in_src env _ _ _ _ _ _ _ H1 H2)
    as Hrun.
  rewrite Hd in Hrun. fold diff sweep in Hrun. cbv zeta in Hrun.
  assert (Hdiff : forall x,
            In x diff <->
            exists ts k, last_with dst_list k ts /\ ts_id ts = x /\
                         ~ exists src, In src src_list /\ ts_id src = Some k).
  { intros x. unfold diff. rewrite (in_diff_list _ _ _ x Hd).
    now setoid_rewrite elem_of_src_ids_of. }
  split; [| split; [| split; [| split]]].
  - unfold trace. now rewrite Hrun.
  - unfold outcome. rewrite Hrun. clear Hrun. cbn [fst snd].
    destruct (fst (env (time_series_delete client_dst diff) s2));
      simpl; [reflexivity | discriminate].
  - exact Hdiff.
  - intros Huniq x. rewrite Hdiff. split.
    + intros (ts & k & Hts & Hx & Hk).
      destruct (last_with_in _ _ _ Hts). eauto 7.
    + intros (ts & k & Hin & He & Hx & Hk).
      exists ts, k. split; [| auto].
      now apply unique_keys_last_with.
  - reflexivity.
Qed.

Lemma stale_sweep_deletes_last_holders_witness :
  trace world_env (remove_replicated_if_not_in_src src_client dst_client)
    (two_stores spec_src spec_dst) =
  [time_series_list src_client; time_series_list dst_client;
   time_series_delete dst_client [Some 30]].
Proof.
  exact (proj1 (stale_sweep_deletes_last_holders world_env
                  src_client dst_client
                  (two_stores spec_src spec_dst)
                  (two_stores spec_src spec_dst)
                  (two_stores spec_src spec_dst)
                  spec_src spec_dst
                  [(1, Some 10); (2, Some 20); (3, Some 30)]
                  eq_refl eq_refl eq_refl)).
Defined.

(** C2, as stated, at a replica whose [_replicatedInternalId] is ["abc"]:
    the sweep fails with [ValueError]. *)
Lemma stale_sweep_unparseable_is_fatal :
  let w := two_stores spec_src [replica 10 "1"; replica 12 "abc"] in
  Py.int "abc" = Raise ValueError /\
  run world_env (remove_replicated_if_not_in_src src_client dst_client) w =
  ([time_series_list src_client; time_series_list dst_client],
   Raise ValueError, w).
Proof. split; reflexivity. Qed.

(** C2, amended. A destination record whose metadata is null or empty,
    or whose [_replicatedInternalId] is the empty string, is skipped: the
    dict is built as if the record were not listed.  A record whose
    non-empty [_replicatedInternalId] does not parse as an integer is not
    deleted either, but it is fatal: the sweep raises after the two
    listings ([ValueError] from [int], unless another record raised the
    [KeyError] of the subscript first) and issues no delete request. *)
Theorem stale_sweep_malformed_provenance {S} (env : handler S)
    (client_src client_dst : CogniteClient) (s s1 s2 : S)
    (src_list dst_list : list TimeSeries) :
  env (time_series_list client_src) s = (Ok src_list, s1) ->
  env (time_series_list client_dst) s1 = (Ok dst_list, s2) ->
  let sweep := remove_replicated_if_not_in_src client_src client_dst in
  (forall pre ts post,
     dst_list = pre ++ ts :: post ->
     metadata ts = None \/ metadata ts = Some ∅ \/
     (exists m, metadata ts = Some m /\
                m !! "_replicatedInternalId" = Some "") ->
     entry ts = Ok None /\
     dst_id_list_loop dst_list [] = dst_id_list_loop (pre ++ post) []) /\
  (forall ts m v,
     In ts dst_list ->
     metadata ts = Some m -> m !! "_replicatedInternalId" = Some v ->
     v <> "" -> Py.int_of_str v = None ->
     exists e,
       run env sweep s =
         ([time_series_list client_src; time_series_list client_dst],
          Raise e, s2) /\
       (e = ValueError \/ e = KeyError "_replicatedInternalId") /\
       ((forall ts', In ts' dst_list ->
           is_ok (metadata_and ts' "_replicatedInternalId") = true) ->
        e = ValueError)).
Proof.
  intros H1 H2 sweep. split.
  - intros pre ts post -> Hskip. pose proof (entry_skip ts Hskip) as He.
    split; [exact He |].
    rewrite !dst_id_list_loop_app.
    destruct (dst_id_list_loop pre []) as [d |]; cbn [rbind]; [| reflexivity].
    rewrite dst_id_list_loop_step, He. reflexivity.
  - intros ts m v Hin Hm Hv Hne Hint.
    pose proof (entry_unparseable ts m v Hm Hv Hne Hint) as He.
    destruct (dst_id_list_loop_raise dst_list [] ts _ Hin He)
      as (e & ts' & Hl & Hin' & He').
    exists e. split; [| split].
    + unfold sweep.
      rewrite (run_remove_replicated_if_not_in_src env _ _ _ _ _ _ _ H1 H2).
      now rewrite Hl.
    + exact (entry_raise _ _ He').
    + intros Hok. destruct (entry_raise _ _ He') as [-> | ->]; [reflexivity |].
      specialize (Hok ts' Hin'). unfold entry in He'.
      destruct (metadata_and ts' "_replicatedInternalId") as [[|] | e'] eqn:Ht;
        simpl in *; try discriminate.
      apply metadata_and_true in Ht as (m' & v' & Hm' & Hv' & _).
      unfold subscript, Py.getitem, Py.int in He'.
      rewrite Hm' in He'. simpl in He'. rewrite Hv' in He'. simpl in He'.
      destruct (Py.int_of_str v'); discriminate.
Qed.

Lemma stale_sweep_malformed_provenance_witness :
  exists e,
    run world_env (remove_replicated_if_not_in_src src_client dst_client)
      (two_stores spec_src [replica 10 "1"; replica 12 "abc"]) =
      ([time_series_list src_client; time_series_list dst_client],
       Raise e, two_stores spec_src [replica 10 "1"; replica 12 "abc"]) /\
    (e = ValueError \/ e = KeyError "_replicatedInternalId") /\
    ((forall ts', In ts' [replica 10 "1"; replica 12 "abc"] ->
        is_ok (metadata_and ts' "_replicatedInternalId") = true) ->
     e = ValueError).
Proof.
  refine (proj2 (stale_sweep_malformed_provenance world_env
                   src_client dst_client
                   (two_stores spec_src [replica 10 "1"; replica 12 "abc"])
                   (two_stores spec_src [replica 10 "1"; replica 12 "abc"])
                   (two_stores spec_src [replica 10 "1"; replica 12 "abc"])
                   spec_src [replica 10 "1"; replica 12 "abc"]
                   eq_refl eq_refl)
            (replica 12 "abc") _ "abc" _ eq_refl _ _ eq_refl).
  - simpl. auto.
  - reflexivity.
  - discriminate.
Defined.

(** C9. When several destination records carry the same parsed
    [_replicatedInternalId], the dict binds that id to the destination
    id of the last of them only; every entry of the delete list is the
    id of a record that is the last holder of its key; and, destination
    ids being distinct, the id of an earlier duplicate is never on the
    delete list, whatever the source ids are. *)
Theorem stale_sweep_last_write_wins (src_ids : gset (option Z))
    (dst_list : list TimeSeries) (d : list (Z * option Z))
    (pre mid post : list TimeSeries) (a b : TimeSeries) (k : Z) :
  dst_id_list_loop dst_list [] = Ok d ->
  dst_list = pre ++ a :: mid ++ b :: post ->
  entry a = Ok (Some k) ->
  entry b = Ok (Some k) ->
  absent_key post k ->
  (forall v, In (k, v) d <-> v = ts_id b) /\
  (forall x, In x (diff_list_of src_ids d) ->
     exists ts k', last_with dst_list k' ts /\ ts_id ts = x) /\
  (NoDup (map ts_id dst_list) -> ~ In (ts_id a) (diff_list_of src_ids d)).
Proof.
  intros Hd Hl Ha Hb Hpost.
  assert (Hnd : NoDup (map fst d))
    by (eapply dst_id_list_loop_NoDup; [exact Hd | constructor]).
  assert (Hlast : last_with dst_list k b).
  { exists (pre ++ a :: mid), post. rewrite Hl, <- app_assoc. simpl. auto. }
  split; [| split].
  - intros v. rewrite (in_value_of _ _ _ Hnd).
    rewrite (dst_id_list_loop_value _ _ _ Hd). split.
    + intros [(ts & Hts & ->) | [Habs _]].
      * now rewrite (last_with_unique _ _ _ _ Hts Hlast).
      * exfalso. apply (Habs b); [| exact Hb].
        apply (last_with_in _ _ _ Hlast).
    + intros ->. left. eauto.
  - intros x Hx. apply (in_diff_list _ _ _ _ Hd) in Hx
      as (ts & k' & Hts & Hx & _). eauto.
  - intros Hids Hin. apply (in_diff_list _ _ _ _ Hd) in Hin
      as (ts & k' & (p & q & Hl' & He & Hq) & Hx & _).
    rewrite Hl in Hl', Hids.
    destruct (NoDup_split_unique ts_id pre p (mid ++ b :: post) q a ts
                Hids Hl' (eq_sym Hx)) as (_ & <- & <-).
    rewrite Ha in He. injection He as <-.
    apply (Hq b); [| exact Hb]. apply in_or_app. right. now left.
Qed.

Lemma stale_sweep_last_write_wins_witness :
  (forall v, In (3, v) [(3, Some 11)] <-> v = ts_id (replica 11 "3")) /\
  (forall x, In x (diff_list_of (src_ids_of spec_src) [(3, Some 11)]) ->
     exists ts k', last_with dup_dst k' ts /\ ts_id ts = x) /\
  (NoDup (map ts_id dup_dst) ->
   ~ In (ts_id (replica 10 "3"))
       (diff_list_of (src_ids_of spec_src) [(3, Some 11)])).
Proof.
  apply (stale_sweep_last_write_wins (src_ids_of spec_src) dup_dst
           [(3, Some 11)] [] [] [] (replica 10 "3") (replica 11 "3") 3);
    try reflexivity.
  intros ts [].
Defined.

(** ** The transforms *)

Lemma linked_asset_id_ok (src_ts : TimeSeries) (m : gmap Z Z) :
  linked_asset_id src_ts m =
  Ok (if Py.int_truthy (asset_id src_ts)
      then match asset_id src_ts with
           | Some a => m !! a
           | None => None
           end
      else None).
Proof. unfold linked_asset_id. now destruct (Py.int_truthy (asset_id src_ts)). Qed.

Lemma linked_asset_id_unresolved (src_ts : TimeSeries) (m : gmap Z Z) :
  asset_id src_ts = None \/
  (exists a, asset_id src_ts = Some a /\ m !! a = None) ->
  linked_asset_id src_ts m = Ok None.
Proof.
  intros H. rewrite linked_asset_id_ok.
  destruct H as [-> | (a & -> & ->)]; [reflexivity |].
  now destruct (Py.int_truthy (Some a)).
Qed.

Lemma assign_same (r : ref) (f : TimeSeries -> TimeSeries) (h : heap) :
  assign r f h r = f (h r).
Proof. unfold assign. now rewrite Nat.eqb_refl. Qed.

Lemma assign_other (r r' : ref) (f : TimeSeries -> TimeSeries) (h : heap) :
  r' <> r -> assign r f h r' = h r'.
Proof. unfold assign. intros H. apply Nat.eqb_neq in H. now rewrite H. Qed.

(** What [update_time_series] leaves in the store: the object behind
    [dst_ts] with the nine replicated attributes rewritten from the
    object behind [src_ts]; every other object untouched. *)
Lemma update_time_series_heap
    (new_metadata : TimeSeries -> string -> Z -> gmap string string)
    (src_ts dst_ts : ref) (m : gmap Z Z) (project_src : string) (runtime : Z)
    (h : heap) :
  exists aid h',
    linked_asset_id (h src_ts) m = Ok aid /\
    update_time_series new_metadata src_ts dst_ts m project_src runtime h =
      Ok (dst_ts, h') /\
    h' dst_ts =
      {| ts_id := ts_id (h dst_ts);
         external_id := external_id (h src_ts);
         name := name (h src_ts);
         is_string := is_string (h src_ts);
         metadata := Some (new_metadata (h src_ts) project_src runtime);
         unit := unit (h src_ts);
         asset_id := aid;
         is_step := is_step (h src_ts);
         description := description (h src_ts);
         security_categories := security_categories (h src_ts);
         legacy_name := legacy_name (h dst_ts) |} /\
    forall r, r <> dst_ts -> h' r = h r.
Proof.
  pose (aid := if Py.int_truthy (asset_id (h src_ts))
               then match asset_id (h src_ts) with
                    | Some a => m !! a
                    | None => None
                    end
               else None).
  assert (Hl : forall t, asset_id t = asset_id (h src_ts) ->
                         linked_asset_id t m = Ok aid).
  { intros t Ht. rewrite linked_asset_id_ok, Ht. reflexivity. }
  unfold update_time_series.
  destruct (Nat.eq_dec src_ts dst_ts) as [-> | Hne].
  - rewrite !assign_same.
    rewrite (Hl (set_unit _ _)) by (destruct (h dst_ts); reflexivity).
    cbn [rbind].
    exists aid. eexists. split; [now apply Hl |].
    split; [reflexivity |]. split.
    + rewrite !assign_same. destruct (h dst_ts). reflexivity.
    + intros r Hr. now rewrite !assign_other.
  - rewrite !(assign_other dst_ts src_ts) by exact Hne.
    rewrite (Hl (h src_ts)) by reflexivity.
    cbn [rbind].
    exists aid. eexists. split; [reflexivity |].
    split; [reflexivity |]. split.
    + rewrite !assign_same. rewrite !(assign_other dst_ts src_ts) by exact Hne.
      destruct (h dst_ts). reflexivity.
    + intros r Hr. now rewrite !assign_other.
Qed.

(** C5, as stated, at a store with a source object and its replica: the
    reference returned is the one passed in, and the object behind it
    has changed. *)
Lemma update_time_series_mutates_in_place :
  exists r h',
    update_time_series stamp 0%nat 1%nat ∅ "src" 1000 two_objects = Ok (r, h') /\
    r = 1%nat /\
    name (two_objects 1%nat) = Some "pump_pressure_old" /\
    name (h' 1%nat) = Some "pump_pressure" /\
    h' 1%nat <> two_objects 1%nat.
Proof.
  eexists _, _. split; [reflexivity |].
  repeat split. intros H. apply (f_equal name) in H. discriminate.
Qed.

(** C5, amended. [update_time_series] overwrites the nine replicated
    attributes (external id, name, is_string, metadata, unit, asset id,
    is_step, description, security categories) with values derived from
    the source, in place, on the matched destination object itself, and
    returns that same object; its id and legacy name keep their values
    and no other object changes. *)
Theorem update_time_series_overwrites_in_place
    (new_metadata : TimeSeries -> string -> Z -> gmap string string)
    (src_ts dst_ts : ref) (m : gmap Z Z) (project_src : string) (runtime : Z)
    (h : heap) :
  exists h',
    update_time_series new_metadata src_ts dst_ts m project_src runtime h =
      Ok (dst_ts, h') /\
    h' dst_ts =
      {| ts_id := ts_id (h dst_ts);
         external_id := external_id (h src_ts);
         name := name (h src_ts);
         is_string := is_string (h src_ts);
         metadata := Some (new_metadata (h src_ts) project_src runtime);
         unit := unit (h src_ts);
         asset_id := (if Py.int_truthy (asset_id (h src_ts))
                      then match asset_id (h src_ts) with
                           | Some a => m !! a
                           | None => None
                           end
                      else None);
         is_step := is_step (h src_ts);
         description := description (h src_ts);
         security_categories := security_categories (h src_ts);
         legacy_name := legacy_name (h dst_ts) |} /\
    forall r, r <> dst_ts -> h' r = h r.
Proof.
  destruct (update_time_series_heap new_metadata src_ts dst_ts m project_src
              runtime h) as (aid & h' & Haid & Hrun & Hdst & Hframe).
  rewrite linked_asset_id_ok in Haid. injection Haid as <-.
  exists h'. auto.
Qed.

(** C6. For a source time series whose asset id is null, or is an id the
    relation map does not hold, both transforms succeed and the asset id
    of what they produce is null. *)
Theorem unresolved_parent_gives_null
    (new_metadata : TimeSeries -> string -> Z -> gmap string string)
    (src_obj : TimeSeries) (m : gmap Z Z) (project_src : string) (runtime : Z) :
  asset_id src_obj = None \/
  (exists a, asset_id src_obj = Some a /\ m !! a = None) ->
  (exists t,
     create_time_series new_metadata src_obj m project_src runtime = Ok t /\
     asset_id t = None) /\
  (forall (h : heap) (src_ts dst_ts : ref),
     h src_ts = src_obj ->
     exists h',
       update_time_series new_metadata src_ts dst_ts m project_src runtime h =
         Ok (dst_ts, h') /\
       asset_id (h' dst_ts) = None).
Proof.
  intros Hun. split.
  - unfold create_time_series.
    rewrite (linked_asset_id_unresolved _ _ Hun). simpl. eauto.
  - intros h src_ts dst_ts Hsrc.
    destruct (update_time_series_heap new_metadata src_ts dst_ts m project_src
                runtime h) as (aid & h' & Haid & Hrun & Hdst & _).
    rewrite Hsrc, (linked_asset_id_unresolved _ _ Hun) in Haid.
    injection Haid as <-. exists h'. split; [exact Hrun |].
    now rewrite Hdst.
Qed.

Lemma unresolved_parent_gives_null_witness :
  (exists t,
     create_time_series stamp pump (<[1 := 2]> ∅) "src" 1000 = Ok t /\
     asset_id t = None) /\
  (forall (h : heap) (src_ts dst_ts : ref),
     h src_ts = pump ->
     exists h',
       update_time_series stamp src_ts dst_ts (<[1 := 2]> ∅) "src" 1000 h =
         Ok (dst_ts, h') /\
       asset_id (h' dst_ts) = None).
Proof.
  apply (unresolved_parent_gives_null stamp pump (<[1 := 2]> ∅) "src" 1000).
  right. exists 99. split; reflexivity.
Defined.

(** ** [replicate] *)

Lemma filter_only {S A} (f : call -> bool) (p : prog A) :
  only (fun c => f c = false) p ->
  forall (env : handler S) s, List.filter f (trace env p s) = [].
Proof.
  intros Hp env s. pose proof (only_trace _ p Hp env s) as Hall.
  induction Hall as [|c t Hc _ IH]; simpl; [reflexivity |].
  now rewrite Hc.
Qed.

Lemma trace_then_run {S A B} (env : handler S)
    (x : list call * result A * S) (f : A -> prog B) :
  fst (fst (then_run env x f)) =
  fst (fst x) ++
  match snd (fst x) with
  | Ok a => trace env (f a) (snd x)
  | Raise _ => []
  end.
Proof.
  destruct x as [[t [a | e]] s]; simpl.
  - unfold trace. now destruct (run env (f a) s) as [[t' r] s'].
  - now rewrite app_nil_r.
Qed.

Ltac only_steps :=
  repeat first
    [ exact I
    | apply only_lift
    | apply only_request; reflexivity
    | apply only_bind; [| intros ] ].

Lemma only_copy_ts_tail (P : call -> Prop) (client : CogniteClient)
    (batch : list TimeSeries * list TimeSeries * list TimeSeries) :
  (forall objs, P (retry_create client objs)) ->
  (forall objs, P (retry_update client objs)) ->
  only P
    (let '(create_ts, update_ts, unchanged_ts) := batch in
     (match create_ts with
      | _ :: _ => request (retry_create client create_ts) ;;; Ret ()
      | [] => Ret ()
      end) ;;;
     (match update_ts with
      | _ :: _ => request (retry_update client update_ts) ;;; Ret ()
      | [] => Ret ()
      end)).
Proof.
  intros Hc Hu. destruct batch as [[[|c cs] [|u us]] un]; simpl; auto.
Qed.

Lemma only_copy_ts (P : call -> Prop) src_ts m am project_src runtime client :
  P (make_objects_batch src_ts m am project_src runtime) ->
  (forall objs, P (retry_create client objs)) ->
  (forall objs, P (retry_update client objs)) ->
  only P (copy_ts src_ts m am project_src runtime client).
Proof.
  intros Hb Hc Hu. unfold copy_ts. apply only_bind.
  - now apply only_request.
  - intros batch. now apply only_copy_ts_tail.
Qed.

Lemma only_remove_replicated_if_not_in_src (P : call -> Prop) cs cd :
  (forall c, P (time_series_list c)) ->
  (forall c ids, P (time_series_delete c ids)) ->
  only P (remove_replicated_if_not_in_src cs cd).
Proof.
  intros Hl Hd. unfold remove_replicated_if_not_in_src.
  repeat first
    [ exact I | apply only_lift | apply only_request; solve [auto]
    | apply only_bind; [| intros ] ].
Qed.

Lemma only_remove_not_replicated_in_dst (P : call -> Prop) cd :
  (forall c, P (time_series_list c)) ->
  (forall c ids, P (time_series_delete c ids)) ->
  only P (remove_not_replicated_in_dst cd).
Proof.
  intros Hl Hd. unfold remove_not_replicated_in_dst.
  repeat first
    [ exact I | apply only_lift | apply only_request; solve [auto]
    | apply only_bind; [| intros ] ].
Qed.

Lemma only_flagged_sweeps (P : call -> Prop) cs cd f1 f2 :
  (forall c, P (time_series_list c)) ->
  (forall c ids, P (time_series_delete c ids)) ->
  only P (flagged_sweeps cs cd f1 f2).
Proof.
  intros Hl Hd. unfold flagged_sweeps. apply only_bind; [| intros _].
  - destruct f1; [| exact I]. apply only_bind; [| intros; exact I].
    now apply only_remove_replicated_if_not_in_src.
  - destruct f2; [| exact I]. apply only_bind; [| intros; exact I].
    now apply only_remove_not_replicated_in_dst.
Qed.

(** Without the delete flags, [replicate] has no delete request in it. *)
Lemma only_replicate_no_delete cs cd bs nt :
  only (fun c => is_delete c = false) (replicate cs cd bs nt false false).
Proof.
  unfold replicate. only_steps.
  match goal with
  | |- context [Z.of_nat (length ?l) >? bs] =>
      destruct (Z.of_nat (length l) >? bs)
  end.
  - now apply only_request.
  - now apply only_copy_ts.
Qed.

(** [replicate] up to the choice between the two paths. *)
Lemma run_replicate {S} (env : handler S) cs cd bs nt f1 f2
    (s s1 s2 s3 s4 s5 s6 : S) ts_src ts_dst idmap assets_dst amap filtered now :
  env (time_series_list cs) s = (Ok ts_src, s1) ->
  env (time_series_list cd) s1 = (Ok ts_dst, s2) ->
  env (make_id_object_map ts_dst) s2 = (Ok idmap, s3) ->
  env (assets_list cd) s3 = (Ok assets_dst, s4) ->
  env (existing_mapping assets_dst) s4 = (Ok amap, s5) ->
  filter_away_service_account_ts ts_src = Ok filtered ->
  env time_time s5 = (Ok now, s6) ->
  run env (replicate cs cd bs nt f1 f2) s =
  after [time_series_list cs; time_series_list cd; make_id_object_map ts_dst;
         assets_list cd; existing_mapping assets_dst; time_time]
    (then_run env
       (run env (dispatch filtered idmap amap (config_project cs) (now * 1000)
                   cd bs nt) s6)
       (fun _ => flagged_sweeps cs cd f1 f2)).
Proof.
  intros H1 H2 H3 H4 H5 Hf H6. unfold replicate.
  cbn [bind request run]. rewrite H1.
  cbn [bind request run]. rewrite H2.
  cbn [bind request run]. rewrite H3.
  cbn [bind request run]. rewrite H4.
  cbn [bind request run]. rewrite H5.
  rewrite Hf. cbn [lift bind request run]. rewrite H6.
  rewrite run_bind. fold (dispatch filtered idmap amap (config_project cs)
                            (now * 1000) cd bs nt).
  fold (flagged_sweeps cs cd f1 f2).
  destruct (then_run env _ _) as [[t r] s']. reflexivity.
Qed.

Lemma trace_after {S A} (t0 : list call) (x : list call * result A * S) :
  fst (fst (after t0 x)) = t0 ++ fst (fst x).
Proof. now destruct x as [[t r] s]. Qed.

Lemma trace_request {S} (env : handler S) (c : call) s :
  trace env (request c) s = [c].
Proof.
  unfold trace. rewrite run_request.
  now destruct (env c s) as [[x | e] s'].
Qed.


Lemma trace_copy_ts {S} (env : handler S) src_ts m am project_src runtime
    client s :
  List.filter is_batch
    (trace env (copy_ts src_ts m am project_src runtime client) s) =
    [make_objects_batch src_ts m am project_src runtime] /\
  List.filter is_thread
    (trace env (copy_ts src_ts m am project_src runtime client) s) = [].
Proof.
  split.
  - unfold copy_ts, trace. cbn [bind request run].
    destruct (env (make_objects_batch src_ts m am project_src runtime) s)
      as [[batch | e] s']; [| reflexivity].
    pose proof (filter_only is_batch _
                  (only_copy_ts_tail (fun c => is_batch c = false) client batch
                     (fun _ => eq_refl) (fun _ => eq_refl)) env s') as Htail.
    unfold trace in Htail.
    destruct (run env _ s') as [[t r] s'']. simpl in *. now rewrite Htail.
  - apply filter_only. now apply only_copy_ts.
Qed.

Lemma trace_flagged_sweeps {S} (env : handler S) cs cd f1 f2 s :
  List.filter is_batch (trace env (flagged_sweeps cs cd f1 f2) s) = [] /\
  List.filter is_thread (trace env (flagged_sweeps cs cd f1 f2) s) = [].
Proof.
  split; apply filter_only; now apply only_flagged_sweeps.
Qed.

(** C7. Once the listings are in and the filter has run, [replicate]
    takes the inline path exactly when the filtered list is no longer
    than [batch_size]: then [copy_ts] runs on the whole filtered list,
    its one [make_objects_batch] request is the only one of the run and
    no [thread] request is issued; otherwise the one [thread] request
    carries the whole filtered list and [copy_ts] is not run inline. *)
Theorem replicate_inline_iff_small {S} (env : handler S)
    (client_src client_dst : CogniteClient) (batch_size num_threads : Z)
    (f1 f2 : bool) (s s1 s2 s3 s4 s5 s6 : S)
    (ts_src ts_dst : list TimeSeries) (idmap : gmap Z TimeSeries)
    (assets_dst : list Asset) (amap : gmap Z Z)
    (filtered : list TimeSeries) (now : Z) :
  env (time_series_list client_src) s = (Ok ts_src, s1) ->
  env (time_series_list client_dst) s1 = (Ok ts_dst, s2) ->
  env (make_id_object_map ts_dst) s2 = (Ok idmap, s3) ->
  env (assets_list client_dst) s3 = (Ok assets_dst, s4) ->
  env (existing_mapping assets_dst) s4 = (Ok amap, s5) ->
  filter_away_service_account_ts ts_src = Ok filtered ->
  env time_time s5 = (Ok now, s6) ->
  let p := replicate client_src client_dst batch_size num_threads f1 f2 in
  let setup :=
    [time_series_list client_src; time_series_list client_dst;
     make_id_object_map ts_dst; assets_list client_dst;
     existing_mapping assets_dst; time_time] in
  let project_src := config_project client_src in
  let inline := make_objects_batch filtered idmap amap project_src (now * 1000) in
  let threaded :=
    thread num_threads filtered idmap amap project_src (now * 1000) client_dst in
  (Z.of_nat (length filtered) <= batch_size ->
   run env p s =
     after setup
       (then_run env
          (run env (copy_ts filtered idmap amap project_src (now * 1000)
                      client_dst) s6)
          (fun _ => flagged_sweeps client_src client_dst f1 f2)) /\
   List.filter is_batch (trace env p s) = [inline] /\
   List.filter is_thread (trace env p s) = []) /\
  (batch_size < Z.of_nat (length filtered) ->
   run env p s =
     after setup
       (then_run env (run env (request threaded) s6)
          (fun _ => flagged_sweeps client_src client_dst f1 f2)) /\
   List.filter is_thread (trace env p s) = [threaded] /\
   List.filter is_batch (trace env p s) = []).
Proof.
  intros H1 H2 H3 H4 H5 Hf H6 p setup project_src inline threaded.
  pose proof (run_replicate env client_src client_dst batch_size num_threads
                f1 f2 s s1 s2 s3 s4 s5 s6 _ _ _ _ _ _ _
                H1 H2 H3 H4 H5 Hf H6) as Hrun.
  fold p setup project_src in Hrun. unfold dispatch in Hrun.
  assert (Hsweeps : forall (x : list call * result () * S) f,
            List.filter f
              (match snd (fst x) with
               | Ok _ => trace env (flagged_sweeps client_src client_dst f1 f2)
                           (snd x)
               | Raise _ => []
               end) =
            match snd (fst x) with
            | Ok _ => List.filter f
                        (trace env
                           (flagged_sweeps client_src client_dst f1 f2) (snd x))
            | Raise _ => []
            end).
  { intros [[t [a | e]] s'] f; reflexivity. }
  split; intros Hlen.
  - assert (Hc : (Z.of_nat (length filtered) >? batch_size) = false)
      by (rewrite Z.gtb_ltb; apply Z.ltb_ge; lia).
    rewrite Hc in Hrun. split; [exact Hrun |].
    unfold trace. rewrite Hrun, trace_after, trace_then_run.
    rewrite !List.filter_app, !Hsweeps.
    destruct (trace_copy_ts env filtered idmap amap project_src (now * 1000)
                client_dst s6) as [Hb Ht].
    destruct (trace_flagged_sweeps env client_src client_dst f1 f2
                (snd (run env (copy_ts filtered idmap amap project_src
                                 (now * 1000) client_dst) s6))) as [Hb' Ht'].
    unfold trace in Hb, Ht. rewrite Hb, Ht, Hb', Ht'. simpl.
    split;
      match goal with
      | |- context [match ?r with Ok _ => _ | Raise _ => _ end] =>
          now destruct r
      end.
  - assert (Hc : (Z.of_nat (length filtered) >? batch_size) = true)
      by (rewrite Z.gtb_ltb; apply Z.ltb_lt; lia).
    rewrite Hc in Hrun. fold threaded in Hrun. split; [exact Hrun |].
    unfold trace. rewrite Hrun, trace_after, trace_then_run.
    rewrite !List.filter_app, !Hsweeps.
    match goal with
    | |- context [fst (fst ?r)] => set (x := r)
    end.
    assert (Hreq : fst (fst x) = [threaded])
      by exact (trace_request env threaded s6).
    destruct (trace_flagged_sweeps env client_src client_dst f1 f2 (snd x))
      as [Hb' Ht'].
    rewrite Hreq, Hb', Ht'. simpl.
    split;
      match goal with
      | |- context [match ?r with Ok _ => _ | Raise _ => _ end] =>
          now destruct r
      end.
Qed.

Lemma replicate_inline_iff_small_witness :
  List.filter is_batch
    (trace world_env (replicate src_client dst_client 5 1 false false)
       (two_stores small_src [])) =
    [make_objects_batch small_src ∅ ∅ "src" 1573000000000] /\
  List.filter is_thread
    (trace world_env (replicate src_client dst_client 5 1 false false)
       (two_stores small_src [])) = [].
Proof.
  refine (proj2 (proj1 (replicate_inline_iff_small world_env
                          src_client dst_client 5 1 false false
                          (two_stores small_src []) (two_stores small_src [])
                          (two_stores small_src []) (two_stores small_src [])
                          (two_stores small_src []) (two_stores small_src [])
                          (two_stores small_src [])
                          small_src [] ∅ [] ∅ small_src 1573000000
                          eq_refl eq_refl eq_refl eq_refl eq_refl eq_refl
                          eq_refl) _)).
  simpl. lia.
Defined.

Example replicate_threaded_when_large :
  trace world_env (replicate src_client dst_client 1 3 false false)
    (two_stores small_src []) =
  [time_series_list src_client; time_series_list dst_client;
   make_id_object_map []; assets_list dst_client; existing_mapping [];
   time_time; thread 3 small_src ∅ ∅ "src" 1573000000000 dst_client].
Proof. reflexivity. Qed.


(** * Further properties *)

(** ** The service account filter: errors, composition *)

Lemma filter_away_raises (ts_src : list TimeSeries) (ts : TimeSeries) :
  In ts ts_src -> name ts = None ->
  filter_away_service_account_ts ts_src = Raise TypeError.
Proof.
  induction ts_src as [|a rest IH]; intros Hin Hn; [destruct Hin |].
  simpl. unfold not_service_account.
  destruct (name a) as [n |] eqn:Ha; [| reflexivity].
  destruct Hin as [-> | Hin]; [congruence |].
  simpl. now rewrite (IH Hin Hn).
Qed.

Lemma filter_away_raise_inv (ts_src : list TimeSeries) (e : exn) :
  filter_away_service_account_ts ts_src = Raise e ->
  e = TypeError /\ exists ts, In ts ts_src /\ name ts = None.
Proof.
  induction ts_src as [|a rest IH]; simpl; [discriminate |].
  unfold not_service_account. destruct (name a) as [n |] eqn:Ha; simpl.
  - destruct (filter_away_service_account_ts rest) as [out | e'];
      simpl; [discriminate |].
    intros [= <-]. destruct (IH eq_refl) as (-> & ts & Hin & Hn).
    split; [reflexivity |]. exists ts. auto.
  - intros [= <-]. split; [reflexivity |]. exists a. auto.
Qed.

Lemma filter_away_clean (ts_src out : list TimeSeries) :
  filter_away_service_account_ts ts_src = Ok out ->
  Forall clean_name out /\
  (length out <= length ts_src)%nat /\
  (forall ts, In ts out -> In ts ts_src) /\
  (forall ts, In ts ts_src -> clean_name ts -> In ts out).
Proof.
  revert out. induction ts_src as [|a rest IH]; intros out H; simpl in H.
  - injection H as <-. repeat split; auto; simpl; lia.
  - unfold not_service_account in H.
    destruct (name a) as [n |] eqn:Ha; [| discriminate]. simpl in H.
    destruct (filter_away_service_account_ts rest) as [out' |];
      [| discriminate].
    simpl in H. injection H as <-.
    destruct (IH out' eq_refl) as (Hc & Hlen & Hsub & Hkeep).
    destruct (Py.contains "service_account_metrics" n) eqn:Hcont; simpl.
    + repeat split; auto.
      * intros ts [<- | Hin] (n' & Hn' & Hcl); [congruence | auto].
        apply Hkeep; [exact Hin | now exists n'].
    + repeat split.
      * constructor; [now exists n | exact Hc].
      * simpl. lia.
      * intros ts [<- | Hin]; [now left | right; auto].
      * intros ts [<- | Hin] Hcl; [now left |]. right. auto.
Qed.

(** X1. [filter_away_service_account_ts] raises exactly when some element
    has no name, and what it raises is [TypeError]; a list in which every
    element has a name is never rejected. *)
Theorem filter_away_type_error_iff (ts_src : list TimeSeries) (e : exn) :
  (filter_away_service_account_ts ts_src = Raise e <->
   e = TypeError /\ exists ts, In ts ts_src /\ name ts = None) /\
  (is_ok (filter_away_service_account_ts ts_src) = true <->
   forall ts, In ts ts_src -> name ts <> None).
Proof.
  assert (Hall : (forall ts, In ts ts_src -> name ts <> None) ->
                 is_ok (filter_away_service_account_ts ts_src) = true).
  { intros Hn. rewrite filter_away_as_filter; [reflexivity |].
    intros ts Hin. specialize (Hn ts Hin).
    destruct (name ts); [eauto | congruence]. }
  split; split.
  - intros Hr. destruct (filter_away_raise_inv _ _ Hr) as (-> & ts & Hts). eauto.
  - intros (-> & ts & Hin & Hn). now apply (filter_away_raises _ ts).
  - intros Hok ts Hin Hn.
    rewrite (filter_away_raises _ _ Hin Hn) in Hok. discriminate.
  - exact Hall.
Qed.

(** X2. Filtering a concatenation is filtering the parts, in order: the
    filter commutes with cutting the source list into chunks, and an
    element without a name in either part makes the whole fail. *)
Theorem filter_away_app (l1 l2 : list TimeSeries) :
  filter_away_service_account_ts (l1 ++ l2) =
  rbind (filter_away_service_account_ts l1) (fun out1 =>
  rbind (filter_away_service_account_ts l2) (fun out2 =>
  Ok (out1 ++ out2))).
Proof.
  induction l1 as [|a l1 IH]; simpl.
  - now destruct (filter_away_service_account_ts l2).
  - destruct (not_service_account a) as [keep |]; simpl; [| reflexivity].
    rewrite IH.
    destruct (filter_away_service_account_ts l1) as [out1 |]; simpl;
      [| reflexivity].
    destruct (filter_away_service_account_ts l2) as [out2 |]; simpl;
      [| reflexivity].
    now destruct keep.
Qed.

(** X3. What the filter returns has only clean names, is no longer than
    the input, holds every clean element of the input and nothing that
    was not in it, and is a fixed point: filtering it again changes
    nothing. *)
Theorem filter_away_idempotent (ts_src out : list TimeSeries) :
  filter_away_service_account_ts ts_src = Ok out ->
  filter_away_service_account_ts out = Ok out /\
  Forall clean_name out /\
  (length out <= length ts_src)%nat /\
  (forall ts, In ts out <-> In ts ts_src /\ clean_name ts).
Proof.
  intros H. destruct (filter_away_clean _ _ H) as (Hc & Hlen & Hsub & Hkeep).
  split; [| split; [exact Hc | split; [exact Hlen |]]].
  - clear - Hc. induction Hc as [|a out (n & Hn & Hcl) _ IH]; [reflexivity |].
    simpl. unfold not_service_account. rewrite Hn, Hcl. simpl.
    now rewrite IH.
  - intros ts. split.
    + intros Hin. split; [auto |].
      rewrite List.Forall_forall in Hc. auto.
    + intros [Hin Hcl]. auto.
Qed.

Lemma filter_away_idempotent_witness :
  filter_away_service_account_ts
    [named 1 "flow"; named 3 "level"] = Ok [named 1 "flow"; named 3 "level"] /\
  Forall clean_name [named 1 "flow"; named 3 "level"] /\
  (length [named 1 "flow"; named 3 "level"] <=
   length [named 1 "flow"; named 2 "service_account_metrics.cpu";
           named 3 "level"])%nat /\
  (forall ts,
     In ts [named 1 "flow"; named 3 "level"] <->
     In ts [named 1 "flow"; named 2 "service_account_metrics.cpu";
            named 3 "level"] /\ clean_name ts).
Proof.
  apply (filter_away_idempotent
           [named 1 "flow"; named 2 "service_account_metrics.cpu";
            named 3 "level"]).
  reflexivity.
Defined.

(** ** [copy_ts] *)

(** X4. Whatever the environment answers, [copy_ts] issues nothing but
    its one [make_objects_batch] request and bulk creates and updates
    against the client it was given, and never sends an empty list. *)
Theorem copy_ts_requests {S} (env : handler S) (src_ts : list TimeSeries)
    (src_id_dst_ts : gmap Z TimeSeries) (src_dst_ids_assets : gmap Z Z)
    (project_src : string) (runtime : Z) (client : CogniteClient) (s : S) :
  Forall (copy_ts_request src_ts src_id_dst_ts src_dst_ids_assets
            project_src runtime client)
    (trace env (copy_ts src_ts src_id_dst_ts src_dst_ids_assets
                  project_src runtime client) s).
Proof.
  apply only_trace. unfold copy_ts. apply only_bind.
  - apply only_request. now left.
  - intros [[[|c cs] [|u us]] un]; simpl;
      repeat first [ exact I | split | intro ];
      unfold copy_ts_request;
      first [ right; left; eexists; split; [| reflexivity]; discriminate
            | right; right; eexists; split; [| reflexivity]; discriminate ].
Qed.



(** X6. When the bulk create fails, [copy_ts] fails with the same
    exception and the bulk update is not attempted. *)
Theorem copy_ts_create_failure_stops {S} (env : handler S)
    (src_ts : list TimeSeries) (src_id_dst_ts : gmap Z TimeSeries)
    (src_dst_ids_assets : gmap Z Z) (project_src : string) (runtime : Z)
    (client : CogniteClient) (s s1 s2 : S)
    (create_ts update_ts unchanged_ts : list TimeSeries) (e : exn) :
  env (make_objects_batch src_ts src_id_dst_ts src_dst_ids_assets
         project_src runtime) s =
    (Ok (create_ts, update_ts, unchanged_ts), s1) ->
  create_ts <> [] ->
  env (retry_create client create_ts) s1 = (Raise e, s2) ->
  run env (copy_ts src_ts src_id_dst_ts src_dst_ids_assets project_src
             runtime client) s =
  ([make_objects_batch src_ts src_id_dst_ts src_dst_ids_assets project_src
      runtime;
    retry_create client create_ts], Raise e, s2).
Proof.
  intros H Hne Hc. unfold copy_ts. cbn [bind request run]. rewrite H.
  destruct create_ts as [|c cs]; [now contradict Hne |].
  cbn. now rewrite Hc.
Qed.

Lemma copy_ts_create_failure_stops_witness :
  run refusing_env (copy_ts small_src ∅ ∅ "src" 1000 dst_client)
    (two_stores small_src []) =
  ([make_objects_batch small_src ∅ ∅ "src" 1000;
    retry_create dst_client small_src],
   Raise (CollaboratorError 429), two_stores small_src []).
Proof.
  apply (copy_ts_create_failure_stops refusing_env small_src ∅ ∅ "src" 1000
           dst_client (two_stores small_src []) (two_stores small_src [])
           (two_stores small_src []) small_src [] []).
  - reflexivity.
  - discriminate.
  - reflexivity.
Defined.

(** ** The orphan sweep on any listing *)

Lemma lacks_key_raise (ts : TimeSeries) (key : string) :
  lacks_key ts key <-> metadata_and ts key = Raise (KeyError key).
Proof.
  unfold lacks_key. rewrite metadata_and_raise. intuition.
Qed.

Lemma not_lacks_key_ok (ts : TimeSeries) (key : string) :
  ~ lacks_key ts key -> is_ok (metadata_and ts key) = true.
Proof.
  intros H. destruct (metadata_and ts key) as [b | e] eqn:Ht; [reflexivity |].
  exfalso. apply H. apply metadata_and_raise in Ht as [_ Ht]. exact Ht.
Qed.

Lemma not_copied_loop_raise (dst_list : list TimeSeries) (ts : TimeSeries)
    (not_copied_list copied_list : list (option Z)) :
  In ts dst_list -> lacks_key ts "_replicatedSource" ->
  not_copied_loop dst_list not_copied_list copied_list =
  Raise (KeyError "_replicatedSource").
Proof.
  revert not_copied_list copied_list.
  induction dst_list as [|a rest IH]; intros nc cp Hin Hl; [destruct Hin |].
  simpl. destruct (metadata_and a "_replicatedSource") as [c | e] eqn:Ha; simpl.
  - destruct Hin as [-> | Hin].
    + apply lacks_key_raise in Hl. congruence.
    + destruct c; now apply IH.
  - apply metadata_and_raise in Ha as [-> _]. reflexivity.
Qed.

Lemma run_remove_not_replicated_in_dst {S} (env : handler S)
    (client_dst : CogniteClient) (s s1 : S) (dst_list : list TimeSeries) :
  env (time_series_list client_dst) s = (Ok dst_list, s1) ->
  run env (remove_not_replicated_in_dst client_dst) s =
  match not_copied_loop dst_list [] [] with
  | Ok ids =>
      ([time_series_list client_dst; time_series_delete client_dst ids],
       match fst (env (time_series_delete client_dst ids) s1) with
       | Ok _ => Ok ids
       | Raise e => Raise e
       end,
       snd (env (time_series_delete client_dst ids) s1))
  | Raise e => ([time_series_list client_dst], Raise e, s1)
  end.
Proof.
  intros H. unfold remove_not_replicated_in_dst. simpl. rewrite H.
  destruct (not_copied_loop dst_list [] []) as [ids | e]; simpl;
    [| reflexivity].
  destruct (env (time_series_delete client_dst ids) s1) as [[[] | e] s2];
    reflexivity.
Qed.

(** X7. On a destination listing in which no record has a non-empty
    metadata dict without [_replicatedSource], the orphan sweep issues
    one delete request and returns its id list: the ids, in listing
    order, of exactly the records without metadata, with an empty
    metadata dict, or with the empty string under [_replicatedSource].
    The request is issued even when that list is empty. *)
Theorem orphan_sweep_deletes_untagged {S} (env : handler S)
    (client_dst : CogniteClient) (s s1 : S) (dst_list : list TimeSeries) :
  env (time_series_list client_dst) s = (Ok dst_list, s1) ->
  (forall ts, In ts dst_list -> ~ lacks_key ts "_replicatedSource") ->
  exists ids,
    trace env (remove_not_replicated_in_dst client_dst) s =
      [time_series_list client_dst; time_series_delete client_dst ids] /\
    (is_ok (fst (env (time_series_delete client_dst ids) s1)) = true ->
     outcome env (remove_not_replicated_in_dst client_dst) s = Ok ids) /\
    (forall keep : TimeSeries -> bool,
       (forall ts, In ts dst_list ->
          (keep ts = true <-> untagged ts "_replicatedSource")) ->
       ids = map ts_id (List.filter keep dst_list)) /\
    (forall x,
       In x ids <->
       exists ts, In ts dst_list /\ ts_id ts = x /\
                  untagged ts "_replicatedSource").
Proof.
  intros H Hok.
  assert (Hok' : forall ts, In ts dst_list ->
                   is_ok (metadata_and ts "_replicatedSource") = true)
    by (intros; apply not_lacks_key_ok; auto).
  pose proof (not_copied_loop_ok dst_list [] [] Hok') as Hloop.
  simpl in Hloop.
  pose proof (run_remove_not_replicated_in_dst env client_dst s s1 dst_list H)
    as Hrun.
  rewrite Hloop in Hrun.
  set (test := fun ts => match metadata_and ts "_replicatedSource" with
                         | Ok c => negb c
                         | Raise _ => false
                         end) in *.
  assert (Htest : forall ts, test ts = true <->
                             untagged ts "_replicatedSource").
  { intros ts. unfold test, untagged. rewrite <- metadata_and_false.
    destruct (metadata_and ts "_replicatedSource") as [[|] | e]; simpl;
      split; congruence. }
  exists (map ts_id (List.filter test dst_list)).
  split; [| split; [| split]].
  - unfold trace. now rewrite Hrun.
  - unfold outcome. rewrite Hrun. clear Hrun. cbn [fst snd].
    destruct (fst (env (time_series_delete client_dst
                          (map ts_id (List.filter test dst_list))) s1));
      simpl; [reflexivity | discriminate].
  - intros keep Hkeep. f_equal. apply List.filter_ext_in.
    intros ts Hin. specialize (Hkeep ts Hin). rewrite <- Htest in Hkeep.
    destruct (test ts), (keep ts); try reflexivity.
    + symmetry. now apply Hkeep.
    + now apply Hkeep.
  - intros x. rewrite in_map_iff. setoid_rewrite List.filter_In.
    setoid_rewrite Htest. split.
    + intros (ts & Hx & Hin & Hu). eauto.
    + intros (ts & Hin & Hx & Hu). eauto.
Qed.

Lemma orphan_sweep_deletes_untagged_witness :
  exists ids,
    trace world_env (remove_not_replicated_in_dst dst_client)
      (two_stores [] [replica 10 "1"; stored 11 None]) =
      [time_series_list dst_client; time_series_delete dst_client ids] /\
    (is_ok (fst (world_env (time_series_delete dst_client ids)
                   (two_stores [] [replica 10 "1"; stored 11 None]))) = true ->
     outcome world_env (remove_not_replicated_in_dst dst_client)
       (two_stores [] [replica 10 "1"; stored 11 None]) = Ok ids) /\
    (forall keep : TimeSeries -> bool,
       (forall ts, In ts [replica 10 "1"; stored 11 None] ->
          (keep ts = true <-> untagged ts "_replicatedSource")) ->
       ids = map ts_id (List.filter keep [replica 10 "1"; stored 11 None])) /\
    (forall x,
       In x ids <->
       exists ts, In ts [replica 10 "1"; stored 11 None] /\ ts_id ts = x /\
                  untagged ts "_replicatedSource").
Proof.
  apply (orphan_sweep_deletes_untagged world_env dst_client
           (two_stores [] [replica 10 "1"; stored 11 None])
           (two_stores [] [replica 10 "1"; stored 11 None])
           [replica 10 "1"; stored 11 None]).
  - reflexivity.
  - intros ts [<- | [<- | []]] (d & Hm & _ & Hk).
    + injection Hm as <-. vm_compute in Hk. discriminate.
    + discriminate.
Defined.

(** X8. One record with a non-empty metadata dict that has no
    [_replicatedSource] key, anywhere in the destination listing, makes
    the orphan sweep raise [KeyError] after the listing: no delete
    request is issued, not even for the records before it. *)
Theorem orphan_sweep_all_or_nothing {S} (env : handler S)
    (client_dst : CogniteClient) (s s1 : S) (dst_list : list TimeSeries)
    (ts : TimeSeries) :
  env (time_series_list client_dst) s = (Ok dst_list, s1) ->
  In ts dst_list ->
  lacks_key ts "_replicatedSource" ->
  run env (remove_not_replicated_in_dst client_dst) s =
  ([time_series_list client_dst], Raise (KeyError "_replicatedSource"), s1).
Proof.
  intros H Hin Hl.
  rewrite (run_remove_not_replicated_in_dst env client_dst s s1 dst_list H).
  now rewrite (not_copied_loop_raise dst_list ts [] [] Hin Hl).
Qed.

Lemma orphan_sweep_all_or_nothing_witness :
  run world_env (remove_not_replicated_in_dst dst_client)
    (two_stores [] [stored 9 None; stored 11 (Some (<["owner" := "ops"]> ∅))]) =
  ([time_series_list dst_client], Raise (KeyError "_replicatedSource"),
   two_stores [] [stored 9 None; stored 11 (Some (<["owner" := "ops"]> ∅))]).
Proof.
  apply (orphan_sweep_all_or_nothing world_env dst_client
           (two_stores [] [stored 9 None;
                           stored 11 (Some (<["owner" := "ops"]> ∅))])
           (two_stores [] [stored 9 None;
                           stored 11 (Some (<["owner" := "ops"]> ∅))])
           [stored 9 None; stored 11 (Some (<["owner" := "ops"]> ∅))]
           (stored 11 (Some (<["owner" := "ops"]> ∅)))).
  - reflexivity.
  - simpl. auto.
  - eexists. split; [reflexivity |]. split.
    + intros H. apply (f_equal (fun m => m !! "owner")) in H.
      vm_compute in H. discriminate.
    + reflexivity.
Defined.

(** ** The stale-replica sweep on any listing *)

Lemma entry_raise_iff (ts : TimeSeries) (e : exn) :
  entry ts = Raise e <->
  (e = KeyError "_replicatedInternalId" /\
   lacks_key ts "_replicatedInternalId") \/
  (e = ValueError /\
   exists d v, metadata ts = Some d /\
               d !! "_replicatedInternalId" = Some v /\ v <> "" /\
               Py.int_of_str v = None).
Proof.
  split.
  - unfold entry.
    destruct (metadata_and ts "_replicatedInternalId") as [[|] | e'] eqn:Ht;
      simpl; try discriminate.
    + apply metadata_and_true in Ht as (d & v & Hm & Hv & Hne).
      unfold subscript, Py.getitem, Py.int. rewrite Hm. simpl.
      rewrite Hv. simpl.
      destruct (Py.int_of_str v) eqn:Hint; simpl; [discriminate |].
      intros [= <-]. right. split; [reflexivity |]. eauto 7.
    + intros [= <-]. left. apply metadata_and_raise in Ht as [-> Ht]. auto.
  - intros [[-> Hl] | (-> & d & v & Hm & Hv & Hne & Hint)].
    + apply lacks_key_raise in Hl. unfold entry. now rewrite Hl.
    + now apply (entry_unparseable ts d v).
Qed.

Lemma entry_ok_iff (ts : TimeSeries) :
  is_ok (entry ts) = true <->
  untagged ts "_replicatedInternalId" \/
  exists d v, metadata ts = Some d /\
              d !! "_replicatedInternalId" = Some v /\ v <> "" /\
              is_ok (Py.int v) = true.
Proof.
  unfold entry.
  destruct (metadata_and ts "_replicatedInternalId") as [[|] | e] eqn:Ht;
    simpl.
  - apply metadata_and_true in Ht as (d & v & Hm & Hv & Hne).
    unfold subscript, Py.getitem. rewrite Hm. simpl. rewrite Hv. simpl.
    split.
    + intros Hok. right. exists d, v. repeat split; auto.
      now destruct (Py.int v).
    + intros [Hu | (d' & v' & Hm' & Hv' & _ & Hok)].
      * apply metadata_and_false in Hu.
        assert (Htrue : metadata_and ts "_replicatedInternalId" = Ok true)
          by (apply metadata_and_true; eauto).
        congruence.
      * try rewrite Hm in Hm'. injection Hm' as <-. rewrite Hv in Hv'.
        injection Hv' as <-. now destruct (Py.int v).
  - split; [| reflexivity]. intros _. left. now apply metadata_and_false.
  - split; [discriminate |].
    intros [Hu | (d & v & Hm & Hv & Hne & _)].
    + apply metadata_and_false in Hu. congruence.
    + assert (Htrue : metadata_and ts "_replicatedInternalId" = Ok true)
        by (apply metadata_and_true; eauto).
      congruence.
Qed.

Lemma dst_id_list_loop_first_raise (pre post : list TimeSeries)
    (ts : TimeSeries) (e : exn) (d : list (Z * option Z)) :
  (forall ts', In ts' pre -> is_ok (entry ts') = true) ->
  entry ts = Raise e ->
  dst_id_list_loop (pre ++ ts :: post) d = Raise e.
Proof.
  revert d. induction pre as [|a pre IH]; intros d Hpre He; simpl app.
  - rewrite dst_id_list_loop_step, He. reflexivity.
  - rewrite dst_id_list_loop_step.
    pose proof (Hpre a (or_introl eq_refl)) as Ha.
    destruct (entry a) as [o |]; [| discriminate]. simpl.
    apply IH; [| exact He]. intros; apply Hpre; now right.
Qed.

Lemma dst_id_list_loop_ok (l : list TimeSeries) (d0 : list (Z * option Z)) :
  is_ok (dst_id_list_loop l d0) = true <->
  forall ts, In ts l -> is_ok (entry ts) = true.
Proof.
  revert d0. induction l as [|a l IH]; intros d0.
  - simpl. split; [intros _ ts [] | reflexivity].
  - rewrite dst_id_list_loop_step.
    destruct (entry a) as [o | e] eqn:Ea; simpl.
    + rewrite IH. split.
      * intros Hl ts [<- | Hin]; [now rewrite Ea | auto].
      * intros Hall ts Hin. apply Hall. now right.
    + split; [discriminate |]. intros Hall.
      specialize (Hall a (or_introl eq_refl)). rewrite Ea in Hall.
      discriminate.
Qed.

Lemma length_setitem {V} (k : Z) (v : V) (d : list (Z * V)) :
  (length (Py.setitem k v d) <= S (length d))%nat.
Proof.
  induction d as [|[k0 v0] d IH]; simpl; [lia |].
  destruct (k =? k0); simpl; lia.
Qed.

Lemma length_dst_id_list_loop (l : list TimeSeries) (d0 d : list (Z * option Z)) :
  dst_id_list_loop l d0 = Ok d ->
  (length d <= length d0 + length l)%nat.
Proof.
  revert d0. induction l as [|a l IH]; intros d0 H.
  - injection H as <-. simpl. lia.
  - rewrite dst_id_list_loop_step in H.
    destruct (entry a) as [[k |] |]; simpl in H; try discriminate.
    + apply IH in H. pose proof (length_setitem k (ts_id a) d0). simpl. lia.
    + apply IH in H. simpl. lia.
Qed.

Lemma NoDup_map_eq {A B} (f : A -> B) (l : list A) (x y : A) :
  NoDup (map f l) -> In x l -> In y l -> f x = f y -> x = y.
Proof.
  induction l as [|a l IH]; simpl; intros Hnd Hx Hy Hf; [destruct Hx |].
  apply NoDup_cons in Hnd as [Hnin Hnd].
  destruct Hx as [-> | Hx], Hy as [-> | Hy]; auto.
  - exfalso. apply Hnin. rewrite Hf, list_elem_of_In. now apply in_map.
  - exfalso. apply Hnin. rewrite <- Hf, list_elem_of_In. now apply in_map.
Qed.

(** X9. The stale-replica sweep fails with the exception of the first
    destination record, in listing order, whose contribution raises:
    [KeyError] for a non-empty metadata dict without
    [_replicatedInternalId], [ValueError] for a non-empty value that is
    not an integer literal.  It fails after the two listings and issues
    no delete request. *)
Theorem stale_sweep_first_failure {S} (env : handler S)
    (client_src client_dst : CogniteClient) (s s1 s2 : S)
    (src_list dst_list pre post : list TimeSeries) (ts : TimeSeries)
    (e : exn) :
  env (time_series_list client_src) s = (Ok src_list, s1) ->
  env (time_series_list client_dst) s1 = (Ok dst_list, s2) ->
  dst_list = pre ++ ts :: post ->
  (forall ts', In ts' pre -> is_ok (entry ts') = true) ->
  entry ts = Raise e ->
  run env (remove_replicated_if_not_in_src client_src client_dst) s =
    ([time_series_list client_src; time_series_list client_dst],
     Raise e, s2) /\
  ((e = KeyError "_replicatedInternalId" /\
    lacks_key ts "_replicatedInternalId") \/
   (e = ValueError /\
    exists d v, metadata ts = Some d /\
                d !! "_replicatedInternalId" = Some v /\ v <> "" /\
                Py.int_of_str v = None)).
Proof.
  intros H1 H2 -> Hpre He. split; [| now apply entry_raise_iff].
  rewrite (run_remove_replicated_if_not_in_src env _ _ _ _ _ _ _ H1 H2).
  now rewrite (dst_id_list_loop_first_raise pre post ts e [] Hpre He).
Qed.

Lemma stale_sweep_first_failure_witness :
  run world_env (remove_replicated_if_not_in_src src_client dst_client)
    (two_stores spec_src manual_then_bad) =
    ([time_series_list src_client; time_series_list dst_client],
     Raise (KeyError "_replicatedInternalId"),
     two_stores spec_src manual_then_bad) /\
  ((KeyError "_replicatedInternalId" = KeyError "_replicatedInternalId" /\
    lacks_key (stored 11 (Some (<["owner" := "ops"]> ∅)))
      "_replicatedInternalId") \/
   (KeyError "_replicatedInternalId" = ValueError /\
    exists d v, metadata (stored 11 (Some (<["owner" := "ops"]> ∅))) = Some d /\
                d !! "_replicatedInternalId" = Some v /\ v <> "" /\
                Py.int_of_str v = None)).
Proof.
  apply (stale_sweep_first_failure world_env src_client dst_client
           (two_stores spec_src manual_then_bad)
           (two_stores spec_src manual_then_bad)
           (two_stores spec_src manual_then_bad)
           spec_src manual_then_bad
           [replica 10 "1"] [replica 12 "abc"]
           (stored 11 (Some (<["owner" := "ops"]> ∅)))
           (KeyError "_replicatedInternalId")).
  - reflexivity.
  - reflexivity.
  - reflexivity.
  - intros ts' [<- | []]. reflexivity.
  - reflexivity.
Defined.

(** X10. The dict of the stale-replica sweep is built without an
    exception exactly when every destination record either fails the
    test (no metadata, an empty dict, the empty string under
    [_replicatedInternalId]) or has a non-empty value under that key
    that [int] accepts. *)
Theorem stale_sweep_succeeds_iff (dst_list : list TimeSeries) :
  is_ok (dst_id_list_loop dst_list []) = true <->
  forall ts, In ts dst_list ->
    untagged ts "_replicatedInternalId" \/
    exists d v, metadata ts = Some d /\
                d !! "_replicatedInternalId" = Some v /\ v <> "" /\
                is_ok (Py.int v) = true.
Proof.
  rewrite dst_id_list_loop_ok. split.
  - intros H ts Hin. apply entry_ok_iff. auto.
  - intros H ts Hin. apply entry_ok_iff. auto.
Qed.

(** X11. With distinct destination ids, the stale-replica sweep never
    puts on its delete list a record that fails the provenance test, nor
    a record whose parsed [_replicatedInternalId] is the id of a source
    record. *)
Theorem stale_sweep_spares_live_replicas (src_list dst_list : list TimeSeries)
    (d : list (Z * option Z)) (r : TimeSeries) :
  dst_id_list_loop dst_list [] = Ok d ->
  NoDup (map ts_id dst_list) ->
  In r dst_list ->
  entry r = Ok None \/
  (exists k src, entry r = Ok (Some k) /\ In src src_list /\
                 ts_id src = Some k) ->
  ~ In (ts_id r) (diff_list_of (src_ids_of src_list) d).
Proof.
  intros Hd Hnd Hr Hcase Hin.
  apply (in_diff_list _ _ _ _ Hd) in Hin as (ts & k' & Hts & Hx & Hk').
  destruct (last_with_in _ _ _ Hts) as [Hts_in Hts_e].
  assert (ts = r) as -> by (eapply NoDup_map_eq; eauto).
  destruct Hcase as [Hnone | (k & src & Hk & Hsrc & Hid)]; [congruence |].
  rewrite Hts_e in Hk. injection Hk as ->.
  apply Hk'. apply elem_of_src_ids_of. eauto.
Qed.

Lemma stale_sweep_spares_live_replicas_witness :
  ~ In (ts_id (replica 20 "2"))
      (diff_list_of (src_ids_of spec_src)
         [(1, Some 10); (2, Some 20); (3, Some 30)]).
Proof.
  apply (stale_sweep_spares_live_replicas spec_src spec_dst
           [(1, Some 10); (2, Some 20); (3, Some 30)] (replica 20 "2")).
  - reflexivity.
  - simpl. repeat (apply NoDup_cons; split;
                   [rewrite list_elem_of_In; simpl; intuition discriminate |]).
    apply NoDup_nil_2.
  - simpl. auto.
  - right. exists 2, (stored 2 None). repeat split. simpl. auto.
Defined.

(** X12. Every id on the delete list of the stale-replica sweep is the
    id of a listed destination record whose parsed
    [_replicatedInternalId] is not a source id, and the list is never
    longer than the destination listing. *)
Theorem stale_sweep_deletes_listed_ids (src_list dst_list : list TimeSeries)
    (d : list (Z * option Z)) :
  dst_id_list_loop dst_list [] = Ok d ->
  (forall x, In x (diff_list_of (src_ids_of src_list) d) ->
     exists ts k, In ts dst_list /\ ts_id ts = x /\
                  entry ts = Ok (Some k) /\
                  ~ exists src, In src src_list /\ ts_id src = Some k) /\
  (length (diff_list_of (src_ids_of src_list) d) <= length dst_list)%nat.
Proof.
  intros Hd. split.
  - intros x Hx. apply (in_diff_list _ _ _ _ Hd) in Hx
      as (ts & k & Hts & Hid & Hk).
    destruct (last_with_in _ _ _ Hts) as [Hin He].
    exists ts, k. repeat split; auto.
    now rewrite <- elem_of_src_ids_of.
  - pose proof (length_dst_id_list_loop _ _ _ Hd) as Hlen. simpl in Hlen.
    unfold diff_list_of. rewrite length_fmap.
    pose proof (length_filter (fun p : Z * option Z =>
                                 Some (fst p) ∉ src_ids_of src_list) d).
    lia.
Qed.

Lemma stale_sweep_deletes_listed_ids_witness :
  (forall x, In x (diff_list_of (src_ids_of spec_src) [(3, Some 11)]) ->
     exists ts k, In ts dup_dst /\ ts_id ts = x /\
                  entry ts = Ok (Some k) /\
                  ~ exists src, In src spec_src /\ ts_id src = Some k) /\
  (length (diff_list_of (src_ids_of spec_src) [(3%Z, Some 11%Z)]) <=
   length dup_dst)%nat.
Proof.
  apply (stale_sweep_deletes_listed_ids spec_src dup_dst [(3, Some 11)]).
  reflexivity.
Defined.

(** X13. When the source listing is empty, the stale-replica sweep puts
    on its delete list the value of every entry of its dict: every
    destination record that is the last holder of a parsed
    [_replicatedInternalId] is deleted. *)
Theorem stale_sweep_empty_source (dst_list : list TimeSeries)
    (d : list (Z * option Z)) :
  dst_id_list_loop dst_list [] = Ok d ->
  diff_list_of (src_ids_of []) d = map snd d /\
  forall ts k, last_with dst_list k ts ->
               In (ts_id ts) (diff_list_of (src_ids_of []) d).
Proof.
  intros Hd.
  assert (Hempty : forall k, Some k ∉ src_ids_of []).
  { intros k. rewrite elem_of_src_ids_of. intros (ts & [] & _). }
  split.
  - unfold diff_list_of. clear Hd.
    induction d as [|[k v] d IH]; [reflexivity |].
    rewrite filter_cons_True by apply Hempty. simpl. f_equal. exact IH.
  - intros ts k Hts. apply (in_diff_list _ _ _ _ Hd). eauto.
Qed.

Lemma stale_sweep_empty_source_witness :
  diff_list_of (src_ids_of []) [(1, Some 10); (2, Some 20); (3, Some 30)] =
    map snd [(1, Some 10); (2, Some 20); (3, Some 30)] /\
  forall ts k, last_with spec_dst k ts ->
               In (ts_id ts)
                 (diff_list_of (src_ids_of [])
                    [(1, Some 10); (2, Some 20); (3, Some 30)]).
Proof.
  apply (stale_sweep_empty_source spec_dst
           [(1, Some 10); (2, Some 20); (3, Some 30)]).
  reflexivity.
Defined.

(** X14. When every parsed [_replicatedInternalId] of the destination
    listing is the id of a source record, the stale-replica sweep still
    issues its delete request, with an empty id list. *)
Theorem stale_sweep_in_sync {S} (env : handler S)
    (client_src client_dst : CogniteClient) (s s1 s2 : S)
    (src_list dst_list : list TimeSeries) :
  env (time_series_list client_src) s = (Ok src_list, s1) ->
  env (time_series_list client_dst) s1 = (Ok dst_list, s2) ->
  is_ok (dst_id_list_loop dst_list []) = true ->
  (forall ts k, In ts dst_list -> entry ts = Ok (Some k) ->
                exists src, In src src_list /\ ts_id src = Some k) ->
  trace env (remove_replicated_if_not_in_src client_src client_dst) s =
  [time_series_list client_src; time_series_list client_dst;
   time_series_delete client_dst []].
Proof.
  intros H1 H2 Hok Hsync. unfold trace.
  rewrite (run_remove_replicated_if_not_in_src env _ _ _ _ _ _ _ H1 H2).
  destruct (dst_id_list_loop dst_list []) as [d |] eqn:Hd; [| discriminate].
  assert (Hnil : diff_list_of (src_ids_of src_list) d = []).
  { destruct (diff_list_of (src_ids_of src_list) d) as [|x l] eqn:Hdiff;
      [reflexivity |].
    assert (Hx : In x (diff_list_of (src_ids_of src_list) d))
      by (rewrite Hdiff; now left).
    apply (in_diff_list _ _ _ _ Hd) in Hx as (ts & k & Hts & _ & Hk).
    destruct (last_with_in _ _ _ Hts) as [Hin He].
    exfalso. apply Hk. apply elem_of_src_ids_of. eauto. }
  cbv zeta. rewrite Hnil. reflexivity.
Qed.

Lemma stale_sweep_in_sync_witness :
  trace world_env (remove_replicated_if_not_in_src src_client dst_client)
    (two_stores spec_src [replica 10 "1"; replica 20 "2"; stored 40 None]) =
  [time_series_list src_client; time_series_list dst_client;
   time_series_delete dst_client []].
Proof.
  apply (stale_sweep_in_sync world_env src_client dst_client
           (two_stores spec_src
              [replica 10 "1"; replica 20 "2"; stored 40 None])
           (two_stores spec_src
              [replica 10 "1"; replica 20 "2"; stored 40 None])
           (two_stores spec_src
              [replica 10 "1"; replica 20 "2"; stored 40 None])
           spec_src [replica 10 "1"; replica 20 "2"; stored 40 None]).
  - reflexivity.
  - reflexivity.
  - reflexivity.
  - intros ts k [<- | [<- | [<- | []]]] He; vm_compute in He;
      try discriminate; injection He as <-.
    + exists (stored 1 None). simpl. auto.
    + exists (stored 2 None). simpl. auto.
Defined.

(** ** [replicate]: what is handed over, and what failures stop *)

Lemma only_bind_lift {A B} (P : call -> Prop) (r : result A)
    (f : A -> prog B) :
  (forall a, r = Ok a -> only P (f a)) -> only P (bind (lift r) f).
Proof. destruct r as [a | e]; simpl; auto. Qed.

Lemma run_replicate_flags {S} (env : handler S)
    (client_src client_dst : CogniteClient) (batch_size num_threads : Z)
    (f1 f2 : bool) (s : S) :
  run env (replicate client_src client_dst batch_size num_threads f1 f2) s =
  then_run env
    (run env (replicate client_src client_dst batch_size num_threads
                false false) s)
    (fun _ => flagged_sweeps client_src client_dst f1 f2).
Proof.
  unfold replicate. cbv zeta.
  do 8 (apply run_bind_suffix; intros ? ?).
  fold (flagged_sweeps client_src client_dst f1 f2). simpl.
  now destruct (run env (flagged_sweeps client_src client_dst f1 f2) _)
    as [[t r] s'].
Qed.

(** X15. Whatever the environment answers and whatever the flags,
    every list of source objects that [replicate] hands to
    [make_objects_batch] or to [replication.thread] holds only time
    series whose name is a string without the service account marker;
    it goes with the project name of the source client and a run time
    that is a multiple of 1000; bulk creates, bulk updates and the
    thread request go to the destination client. *)
Theorem replicate_hands_over_clean {S} (env : handler S)
    (client_src client_dst : CogniteClient) (batch_size num_threads : Z)
    (f1 f2 : bool) (s : S) :
  Forall (handed_over client_src client_dst)
    (trace env (replicate client_src client_dst batch_size num_threads
                  f1 f2) s).
Proof.
  apply only_trace. unfold replicate. cbv zeta.
  apply only_bind; [now apply only_request | intros ts_src].
  apply only_bind; [now apply only_request | intros ts_dst].
  apply only_bind; [now apply only_request | intros idmap].
  apply only_bind; [now apply only_request | intros assets_dst].
  apply only_bind; [now apply only_request | intros amap].
  apply only_bind_lift. intros filtered Hf.
  destruct (filter_away_clean _ _ Hf) as (Hclean & _).
  apply only_bind; [now apply only_request | intros now].
  assert (Hdiv : (1000 | now * 1000)) by apply Z.divide_factor_r.
  apply only_bind.
  - destruct (Z.of_nat (length filtered) >? batch_size).
    + apply only_request. simpl. auto.
    + apply only_copy_ts; simpl; auto.
  - intros _.
    exact (only_flagged_sweeps (handed_over client_src client_dst)
             client_src client_dst f1 f2 (fun _ => I) (fun _ _ => I)).
Qed.

(** X16. A source time series without a name stops [replicate] with
    [TypeError] right after the listings and the two map builders:
    nothing is created, updated or deleted, whatever the flags. *)
Theorem replicate_aborts_on_nameless {S} (env : handler S)
    (client_src client_dst : CogniteClient) (batch_size num_threads : Z)
    (f1 f2 : bool) (s s1 s2 s3 s4 s5 : S)
    (ts_src ts_dst : list TimeSeries) (idmap : gmap Z TimeSeries)
    (assets_dst : list Asset) (amap : gmap Z Z) (ts : TimeSeries) :
  env (time_series_list client_src) s = (Ok ts_src, s1) ->
  env (time_series_list client_dst) s1 = (Ok ts_dst, s2) ->
  env (make_id_object_map ts_dst) s2 = (Ok idmap, s3) ->
  env (assets_list client_dst) s3 = (Ok assets_dst, s4) ->
  env (existing_mapping assets_dst) s4 = (Ok amap, s5) ->
  In ts ts_src ->
  name ts = None ->
  run env (replicate client_src client_dst batch_size num_threads f1 f2) s =
  ([time_series_list client_src; time_series_list client_dst;
    make_id_object_map ts_dst; assets_list client_dst;
    existing_mapping assets_dst], Raise TypeError, s5).
Proof.
  intros H1 H2 H3 H4 H5 Hin Hn. unfold replicate.
  cbn [bind request run]. rewrite H1.
  cbn [bind request run]. rewrite H2.
  cbn [bind request run]. rewrite H3.
  cbn [bind request run]. rewrite H4.
  cbn [bind request run]. rewrite H5.
  rewrite (filter_away_raises _ _ Hin Hn). reflexivity.
Qed.

Lemma replicate_aborts_on_nameless_witness :
  run world_env (replicate src_client dst_client 10 1 true true)
    (two_stores nameless_src spec_dst) =
  ([time_series_list src_client; time_series_list dst_client;
    make_id_object_map spec_dst; assets_list dst_client;
    existing_mapping []], Raise TypeError, two_stores nameless_src spec_dst).
Proof.
  apply (replicate_aborts_on_nameless world_env src_client dst_client 10 1
           true true
           (two_stores nameless_src spec_dst) (two_stores nameless_src spec_dst)
           (two_stores nameless_src spec_dst) (two_stores nameless_src spec_dst)
           (two_stores nameless_src spec_dst) (two_stores nameless_src spec_dst)
           nameless_src spec_dst ∅ [] ∅ (stored 2 None));
    try reflexivity.
  simpl. auto.
Defined.

(** X17. When the copy phase of [replicate] fails, the run ends there
    with that exception: neither sweep is started, even with both
    delete flags set, and no delete request is issued. *)
Theorem replicate_copy_failure_skips_sweeps {S} (env : handler S)
    (client_src client_dst : CogniteClient) (batch_size num_threads : Z)
    (f1 f2 : bool) (s : S) (e : exn) :
  outcome env (replicate client_src client_dst batch_size num_threads
                 false false) s = Raise e ->
  run env (replicate client_src client_dst batch_size num_threads f1 f2) s =
    run env (replicate client_src client_dst batch_size num_threads
               false false) s /\
  outcome env (replicate client_src client_dst batch_size num_threads
                 f1 f2) s = Raise e /\
  List.filter is_delete
    (trace env (replicate client_src client_dst batch_size num_threads
                  f1 f2) s) = [].
Proof.
  intros He.
  assert (Hrun : run env (replicate client_src client_dst batch_size
                            num_threads f1 f2) s =
                 run env (replicate client_src client_dst batch_size
                            num_threads false false) s).
  { rewrite run_replicate_flags. unfold outcome in He.
    destruct (run env (replicate client_src client_dst batch_size
                         num_threads false false) s) as [[t r] s'].
    simpl in He. subst r. reflexivity. }
  split; [exact Hrun |]. split.
  - unfold outcome. now rewrite Hrun.
  - unfold trace. rewrite Hrun.
    apply (filter_only is_delete _
             (only_replicate_no_delete client_src client_dst batch_size
                num_threads) env s).
Qed.

Lemma replicate_copy_failure_skips_sweeps_witness :
  run refusing_env (replicate src_client dst_client 5 1 true true)
    (two_stores small_src spec_dst) =
    run refusing_env (replicate src_client dst_client 5 1 false false)
      (two_stores small_src spec_dst) /\
  outcome refusing_env (replicate src_client dst_client 5 1 true true)
    (two_stores small_src spec_dst) = Raise (CollaboratorError 429) /\
  List.filter is_delete
    (trace refusing_env (replicate src_client dst_client 5 1 true true)
       (two_stores small_src spec_dst)) = [].
Proof.
  apply (replicate_copy_failure_skips_sweeps refusing_env src_client
           dst_client 5 1 true true (two_stores small_src spec_dst)
           (CollaboratorError 429)).
  reflexivity.
Defined.

(** X18. On the inline path, that is when the filtered source list is
    no longer than [batch_size], [num_threads] has no effect on the
    run. *)
Theorem replicate_inline_ignores_num_threads {S} (env : handler S)
    (client_src client_dst : CogniteClient)
    (batch_size num_threads num_threads' : Z)
    (f1 f2 : bool) (s s1 s2 s3 s4 s5 s6 : S)
    (ts_src ts_dst : list TimeSeries) (idmap : gmap Z TimeSeries)
    (assets_dst : list Asset) (amap : gmap Z Z)
    (filtered : list TimeSeries) (now : Z) :
  env (time_series_list client_src) s = (Ok ts_src, s1) ->
  env (time_series_list client_dst) s1 = (Ok ts_dst, s2) ->
  env (make_id_object_map ts_dst) s2 = (Ok idmap, s3) ->
  env (assets_list client_dst) s3 = (Ok assets_dst, s4) ->
  env (existing_mapping assets_dst) s4 = (Ok amap, s5) ->
  filter_away_service_account_ts ts_src = Ok filtered ->
  env time_time s5 = (Ok now, s6) ->
  Z.of_nat (length filtered) <= batch_size ->
  run env (replicate client_src client_dst batch_size num_threads f1 f2) s =
  run env (replicate client_src client_dst batch_size num_threads' f1 f2) s.
Proof.
  intros H1 H2 H3 H4 H5 Hf H6 Hlen.
  rewrite (run_replicate env client_src client_dst batch_size num_threads
             f1 f2 s s1 s2 s3 s4 s5 s6 _ _ _ _ _ _ _ H1 H2 H3 H4 H5 Hf H6).
  rewrite (run_replicate env client_src client_dst batch_size num_threads'
             f1 f2 s s1 s2 s3 s4 s5 s6 _ _ _ _ _ _ _ H1 H2 H3 H4 H5 Hf H6).
  unfold dispatch.
  assert (Hc : (Z.of_nat (length filtered) >? batch_size) = false)
    by (rewrite Z.gtb_ltb; apply Z.ltb_ge; lia).
  now rewrite Hc.
Qed.

Lemma replicate_inline_ignores_num_threads_witness :
  run world_env (replicate src_client dst_client 5 1 true false)
    (two_stores small_src spec_dst) =
  run world_env (replicate src_client dst_client 5 8 true false)
    (two_stores small_src spec_dst).
Proof.
  refine (replicate_inline_ignores_num_threads world_env src_client
            dst_client 5 1 8 true false
            (two_stores small_src spec_dst) (two_stores small_src spec_dst)
            (two_stores small_src spec_dst) (two_stores small_src spec_dst)
            (two_stores small_src spec_dst) (two_stores small_src spec_dst)
            (two_stores small_src spec_dst)
            small_src spec_dst ∅ [] ∅ small_src 1573000000
            eq_refl eq_refl eq_refl eq_refl eq_refl eq_refl eq_refl _).
  simpl. lia.
Defined.

(** ** The transforms: agreement and repetition *)

(** X19. Updating twice from the same source object is updating once:
    after an [update_time_series] that returned, a second one with the
    same arguments returns the same reference and leaves every object as
    the first one left it, provided source and destination are
    different objects. *)
Theorem update_time_series_idempotent
    (new_metadata : TimeSeries -> string -> Z -> gmap string string)
    (src_ts dst_ts r1 : ref) (m : gmap Z Z) (project_src : string)
    (runtime : Z) (h h' : heap) :
  src_ts <> dst_ts ->
  update_time_series new_metadata src_ts dst_ts m project_src runtime h =
    Ok (r1, h') ->
  exists h'',
    update_time_series new_metadata src_ts dst_ts m project_src runtime h' =
      Ok (r1, h'') /\
    forall r, h'' r = h' r.
Proof.
  intros Hne Hfirst.
  destruct (update_time_series_heap new_metadata src_ts dst_ts m project_src
              runtime h) as (aid & h1 & Haid & Hrun & Hdst & Hframe).
  rewrite Hrun in Hfirst. injection Hfirst as <- Hh.
  assert (Hdst1 : h' dst_ts = h1 dst_ts) by now rewrite Hh.
  assert (Hsrc1 : h' src_ts = h src_ts)
    by (rewrite <- Hh; now apply Hframe).
  destruct (update_time_series_heap new_metadata src_ts dst_ts m project_src
              runtime h') as (aid' & h'' & Haid' & Hrun' & Hdst' & Hframe').
  exists h''. split; [exact Hrun' |].
  intros r. destruct (Nat.eq_dec r dst_ts) as [-> | Hr].
  - rewrite Hsrc1 in Haid', Hdst'.
    rewrite Haid in Haid'. injection Haid' as <-.
    rewrite Hdst', Hdst1, Hdst. reflexivity.
  - now apply Hframe'.
Qed.

Lemma update_time_series_idempotent_witness :
  exists h' h'',
    update_time_series stamp 0%nat 1%nat ∅ "src" 1000 two_objects =
      Ok (1%nat, h') /\
    update_time_series stamp 0%nat 1%nat ∅ "src" 1000 h' =
      Ok (1%nat, h'') /\
    forall r, h'' r = h' r.
Proof.
  eexists.
  match goal with
  | |- exists h'', ?first = Ok (_, ?h1) /\ _ =>
      assert (Hfirst : first = Ok (1%nat, h1)) by reflexivity;
      destruct (update_time_series_idempotent stamp 0%nat 1%nat 1%nat ∅
                  "src" 1000 two_objects h1 ltac:(discriminate) Hfirst)
        as (h'' & Hsecond & Hsame)
  end.
  exists h''. auto.
Defined.

(** X20. [update_time_series] and [create_time_series] agree.  From one
    source object both return or both raise the same exception; when
    they return, the updated destination object has the external id,
    name, is_string, metadata, unit, asset id, is_step, description and
    security categories of the created object.  The created object has
    no id and takes the source external id as legacy name; the updated
    one keeps the id and the legacy name it had. *)
Theorem update_agrees_with_create
    (new_metadata : TimeSeries -> string -> Z -> gmap string string)
    (src_ts dst_ts : ref) (m : gmap Z Z) (project_src : string) (runtime : Z)
    (h : heap) :
  match create_time_series new_metadata (h src_ts) m project_src runtime with
  | Ok t =>
      ts_id t = None /\
      legacy_name t = external_id (h src_ts) /\
      exists h',
        update_time_series new_metadata src_ts dst_ts m project_src runtime h =
          Ok (dst_ts, h') /\
        h' dst_ts =
          {| ts_id := ts_id (h dst_ts);
             external_id := external_id t;
             name := name t;
             is_string := is_string t;
             metadata := metadata t;
             unit := unit t;
             asset_id := asset_id t;
             is_step := is_step t;
             description := description t;
             security_categories := security_categories t;
             legacy_name := legacy_name (h dst_ts) |}
  | Raise e =>
      update_time_series new_metadata src_ts dst_ts m project_src runtime h =
        Raise e
  end.
Proof.
  destruct (update_time_series_heap new_metadata src_ts dst_ts m project_src
              runtime h) as (aid & h' & Haid & Hrun & Hdst & _).
  unfold create_time_series. rewrite Haid. simpl.
  split; [reflexivity |]. split; [reflexivity |].
  exists h'. split; [exact Hrun | exact Hdst].
Qed.

(** X21. An asset id of 0 counts as no asset: for such a source object
    both transforms give a null asset id, whatever the relation map
    holds for 0. *)
Theorem asset_id_zero_is_dropped
    (new_metadata : TimeSeries -> string -> Z -> gmap string string)
    (src_obj : TimeSeries) (m : gmap Z Z) (project_src : string) (runtime : Z) :
  asset_id src_obj = Some 0 ->
  (exists t,
     create_time_series new_metadata src_obj m project_src runtime = Ok t /\
     asset_id t = None) /\
  (forall (h : heap) (src_ts dst_ts : ref),
     h src_ts = src_obj ->
     exists h',
       update_time_series new_metadata src_ts dst_ts m project_src runtime h =
         Ok (dst_ts, h') /\
       asset_id (h' dst_ts) = None).
Proof.
  intros Hz.
  assert (Hl : linked_asset_id src_obj m = Ok None)
    by (unfold linked_asset_id; now rewrite Hz).
  split.
  - unfold create_time_series. rewrite Hl. simpl. eauto.
  - intros h src_ts dst_ts Hsrc.
    destruct (update_time_series_heap new_metadata src_ts dst_ts m project_src
                runtime h) as (aid & h' & Haid & Hrun & Hdst & _).
    rewrite Hsrc, Hl in Haid. injection Haid as <-.
    exists h'. split; [exact Hrun |]. now rewrite Hdst.
Qed.

Lemma asset_id_zero_is_dropped_witness :
  (exists t,
     create_time_series stamp rootless (<[0 := 5]> ∅) "src" 1000 = Ok t /\
     asset_id t = None) /\
  (forall (h : heap) (src_ts dst_ts : ref),
     h src_ts = rootless ->
     exists h',
       update_time_series stamp src_ts dst_ts (<[0 := 5]> ∅) "src" 1000 h =
         Ok (dst_ts, h') /\
       asset_id (h' dst_ts) = None).
Proof.
  apply (asset_id_zero_is_dropped stamp rootless (<[0 := 5]> ∅) "src" 1000).
  reflexivity.
Defined.
